(** * RealTimeMetrics.py: the ESL client, the table parser and the
      aggregation engine, embedded and verified.

    Python values are modelled as follows.
    - [str] is [string]; a character is an [ascii], i.e. a code point
      below 256 (the ESL control protocol and the call-center tables are
      ASCII text).  The line feed is ["010"%char].
    - [int] is [Z].
    - an exception is an [exn] (its class and its [str(e)]); code that may
      raise returns a [result]; code that may also loop forever (the frame
      reader) returns an [outcome].
    - a [dict] used as a finite map is a [gmap]; a row of a table, whose
      column order matters, is an association list. *)

From Stdlib Require Import ZArith QArith Qround String Ascii List Lia Bool.
From stdpp Require Import base gmap strings list pretty.

Local Open Scope Z_scope.

(** ** Exceptions *)

Inductive exn_kind :=
  | ConnectionError | ConnectionRefusedError | BrokenPipeError | TimeoutError
  | OSError | AttributeError
  | IndexError | ValueError | KeyError | TypeError | CsvError.

Record exn := Exn { exn_class : exn_kind; exn_str : string }.

Inductive result (A : Type) :=
  | Ok (a : A)
  | Raise (e : exn).
Arguments Ok {A} a.
Arguments Raise {A} e.

Inductive outcome (A : Type) :=
  | Returns (a : A)
  | Raises (e : exn)
  | Hangs.
Arguments Returns {A} a.
Arguments Raises {A} e.
Arguments Hangs {A}.

Definition bindR {A B} (r : result A) (k : A -> result B) : result B :=
  match r with
  | Ok a => k a
  | Raise e => Raise e
  end.

Notation "x <- m ;; k" := (bindR m (fun x => k))
  (at level 100, m at next level, right associativity, only parsing).

Definition lift {A} (r : result A) : outcome A :=
  match r with
  | Ok a => Returns a
  | Raise e => Raises e
  end.

Instance exn_kind_eq_dec : EqDecision exn_kind.
Proof. solve_decision. Defined.

Instance exn_eq_dec : EqDecision exn.
Proof. solve_decision. Defined.

Instance result_eq_dec {A} `{EqDecision A} : EqDecision (result A).
Proof. solve_decision. Defined.

(** ** Text primitives *)

Definition LF : ascii := "010"%char.
Definition CR : ascii := "013"%char.

(** The separator ["\n\n"] between the header section and the body. *)
Definition blank_line : string := String LF (String LF EmptyString).

Fixpoint startswith (p s : string) : bool :=
  match p, s with
  | EmptyString, _ => true
  | String a p', String b s' => Ascii.eqb a b && startswith p' s'
  | String _ _, EmptyString => false
  end.

Fixpoint drop_chars (n : nat) (s : string) : string :=
  match n, s with
  | O, _ => s
  | S n', String _ s' => drop_chars n' s'
  | S _, EmptyString => EmptyString
  end.

(** [needle in hay] *)
Fixpoint contains (needle hay : string) : bool :=
  if startswith needle hay then true
  else match hay with
       | EmptyString => false
       | String _ t => contains needle t
       end.

(** [s.partition(sep)] restricted to the found case: the text before the
    leftmost occurrence of [sep] and the text after it. *)
Fixpoint cut (sep s : string) : option (string * string) :=
  if startswith sep s then Some (EmptyString, drop_chars (String.length sep) s)
  else match s with
       | EmptyString => None
       | String c t =>
           match cut sep t with
           | Some (a, b) => Some (String c a, b)
           | None => None
           end
       end.

(** [s.split(sep, 1)] *)
Definition split1 (sep s : string) : list string :=
  match cut sep s with
  | Some (a, b) => [a; b]
  | None => [s]
  end.

(** [l[1]] *)
Definition item1 (l : list string) : result string :=
  match l !! 1%nat with
  | Some x => Ok x
  | None => Raise (Exn IndexError "list index out of range")
  end.

Definition is_digit (c : ascii) : bool :=
  (48 <=? nat_of_ascii c)%nat && (nat_of_ascii c <=? 57)%nat.

(** [str.isspace] on code points below 256. *)
Definition is_space (c : ascii) : bool :=
  let n := nat_of_ascii c in
  ((9 <=? n) && (n <=? 13) || (28 <=? n) && (n <=? 32)
   || (n =? 133) || (n =? 160))%nat.

Fixpoint lstrip (s : string) : string :=
  match s with
  | EmptyString => EmptyString
  | String c t => if is_space c then lstrip t else s
  end.

Fixpoint rstrip (s : string) : string :=
  match s with
  | EmptyString => EmptyString
  | String c t =>
      match rstrip t with
      | EmptyString => if is_space c then EmptyString else String c EmptyString
      | r => String c r
      end
  end.

(** [s.strip()] *)
Definition strip (s : string) : string := rstrip (lstrip s).

Fixpoint take_digits (s : string) : string :=
  match s with
  | EmptyString => EmptyString
  | String c t => if is_digit c then String c (take_digits t) else EmptyString
  end.

Definition digit_value (c : ascii) : Z := Z.of_nat (nat_of_ascii c) - 48.

(** The value of a run of decimal digits, most significant first. *)
Fixpoint digits_value (acc : Z) (s : string) : Z :=
  match s with
  | EmptyString => acc
  | String c t => digits_value (10 * acc + digit_value c) t
  end.

(** The digits of [int] literals as [int()] accepts them: decimal digits,
    single underscores allowed between two digits. *)
Fixpoint int_digits (acc : Z) (after_digit : bool) (s : string) : option Z :=
  match s with
  | EmptyString => if after_digit then Some acc else None
  | String c t =>
      if is_digit c then int_digits (10 * acc + digit_value c) true t
      else if Ascii.eqb c "_" && after_digit then
        match t with
        | String d _ => if is_digit d then int_digits acc false t else None
        | EmptyString => None
        end
      else None
  end.

Definition invalid_literal : exn :=
  Exn ValueError "invalid literal for int() with base 10".

(** [int(s)] for a [str] argument: surrounding whitespace is ignored, one
    sign is allowed.  (CPython's limit of 4300 digits is not modelled.) *)
Definition int_of_str (s : string) : result Z :=
  let t := strip s in
  let '(neg, body) :=
    match t with
    | String "-" r => (true, r)
    | String "+" r => (false, r)
    | _ => (false, t)
    end in
  match int_digits 0 false body with
  | Some n => Ok (if neg then - n else n)
  | None => Raise invalid_literal
  end.

(** The pattern of [re.search(r"Content-Length: (\d+)", response)]. *)
Definition content_length_pattern : string := "Content-Length: ".

(** A match of the pattern at the very start of [s]: the captured digits. *)
Definition match_here (s : string) : option string :=
  if startswith content_length_pattern s then
    match take_digits (drop_chars 16 s) with
    | EmptyString => None
    | ds => Some ds
    end
  else None.

(** The leftmost match: [group(1)] of [re.search], [None] without a match. *)
Fixpoint search_content_length (s : string) : option string :=
  match match_here s with
  | Some ds => Some ds
  | None =>
      match s with
      | EmptyString => None
      | String _ t => search_content_length t
      end
  end.

(** ** The socket and the peer

    A socket holds the chunks that successive [recv(1024).decode()] calls
    will return ([inbox]) and, for each message still to be sent, the chunks
    the peer answers with ([replies]).  When the inbox is empty, [recv]
    raises [socket.timeout] after the 30 s set by [settimeout], unless the
    peer has closed the connection ([eof]), in which case [recv] returns the
    empty string at once, every time. *)

Record socket := Socket {
  connected : bool;
  inbox : list string;
  replies : list (list string);
  eof : bool;
  sent : list string }.

(** What answers at [(host, port)]. *)
Inductive endpoint :=
  | Refused
  | Listening (greeting : list string) (answers : list (list string))
              (closes : bool).

Definition timed_out : exn := Exn TimeoutError "timed out".
Definition not_connected : exn :=
  Exn OSError "[Errno 107] Transport endpoint is not connected".
Definition broken_pipe : exn := Exn BrokenPipeError "[Errno 32] Broken pipe".

Definition with_inbox (s : socket) (l : list string) : socket :=
  Socket (connected s) l (replies s) (eof s) (sent s).

Definition recv (s : socket) : result string * socket :=
  if connected s then
    match inbox s with
    | part :: rest => (Ok part, with_inbox s rest)
    | [] => if eof s then (Ok EmptyString, s) else (Raise timed_out, s)
    end
  else (Raise not_connected, s).

Definition send (msg : string) (s : socket) : result unit * socket :=
  if connected s then
    (Ok tt, Socket true (inbox s ++ hd [] (replies s)) (tl (replies s))
                   (eof s) (sent s ++ [msg]))
  else (Raise broken_pipe, s).

(** ** FreeSWITCHClient *)

Record FreeSWITCHClient := Client {
  host_port : endpoint;
  password : string;
  connection : option socket }.

Definition with_connection (self : FreeSWITCHClient) (s : socket)
  : FreeSWITCHClient :=
  Client (host_port self) (password self) (Some s).

Definition auth_failed : exn :=
  Exn ConnectionError "Failed to authenticate with FreeSWITCH".
Definition connect_failed : exn :=
  Exn ConnectionError "Failed to connect to FreeSWITCH".

(** The handshake of [connect], on the socket just opened. *)
Definition handshake (pw : string) (s : socket) : result unit * socket :=
  let '(r1, s1) := recv s in
  match r1 with
  | Raise e => (Raise e, s1)
  | Ok auth_response =>
      if contains "Content-Type: auth/request" auth_response then
        let '(r2, s2) := send ("auth " +:+ pw +:+ blank_line) s1 in
        match r2 with
        | Raise e => (Raise e, s2)
        | Ok _ =>
            let '(r3, s3) := recv s2 in
            match r3 with
            | Raise e => (Raise e, s3)
            | Ok response =>
                if contains "Reply-Text: +OK" response then (Ok tt, s3)
                else (Raise auth_failed, s3)
            end
        end
      else (Raise connect_failed, s1)
  end.

(** [connect]: [self.connection] is assigned before the TCP connect and the
    handshake, so it stays set when either of them raises. *)
Definition connect (self : FreeSWITCHClient) : result unit * FreeSWITCHClient :=
  match connection self with
  | Some _ => (Ok tt, self)
  | None =>
      match host_port self with
      | Refused =>
          (Raise (Exn ConnectionRefusedError "[Errno 111] Connection refused"),
           with_connection self (Socket false [] [] false []))
      | Listening greeting answers closes =>
          let '(r, s) :=
            handshake (password self) (Socket true greeting answers closes [])
          in (r, with_connection self s)
      end
  end.

(** The loop of [_recv_response], by recursion on the chunks [recv] will
    deliver; [response] and [content_length] are the loop's variables.  An
    exhausted inbox ends the loop by [socket.timeout], or never when the
    peer has closed: every later [recv] returns the empty string, which
    changes neither variable. *)
Fixpoint recv_loop (chunks : list string) (at_eof : bool)
    (response : string) (content_length : option Z)
  : outcome string * list string :=
  match chunks with
  | [] => (if at_eof then Hangs else Raises timed_out, [])
  | part :: rest =>
      let response := response +:+ part in
      let content_length :=
        match content_length with
        | None =>
            match search_content_length response with
            | Some ds => Some (digits_value 0 ds)
            | None => None
            end
        | Some n => Some n
        end in
      match content_length with
      | None => recv_loop rest at_eof response content_length
      | Some n =>
          if n =? 0 then recv_loop rest at_eof response content_length
          else
            match item1 (split1 blank_line response) with
            | Raise e => (Raises e, rest)
            | Ok body =>
                if n <=? Z.of_nat (String.length body)
                then (Returns response, rest)
                else recv_loop rest at_eof response content_length
            end
      end
  end.

Definition _recv_response (s : socket) : outcome string * socket :=
  if connected s then
    let '(r, rest) := recv_loop (inbox s) (eof s) EmptyString None in
    (r, with_inbox s rest)
  else (Raises not_connected, s).

Definition execute (command : string) (self : FreeSWITCHClient)
  : outcome string * FreeSWITCHClient :=
  let '(r, self) := connect self in
  match r with
  | Raise e => (Raises e, self)
  | Ok _ =>
      match connection self with
      | None =>
          (Raises (Exn AttributeError
                     "'NoneType' object has no attribute 'send'"), self)
      | Some s =>
          let '(r, s) := send ("api " +:+ command +:+ blank_line) s in
          match r with
          | Raise e => (Raises e, with_connection self s)
          | Ok _ =>
              let '(r, s) := _recv_response s in
              (r, with_connection self s)
          end
      end
  end.

(** The loop of [execute_multiple_commands]; [except Exception] stores
    [str(e)].  A command whose read never ends keeps the loop from going
    on. *)
Fixpoint execute_commands (commands : list string)
    (results : gmap string string) (self : FreeSWITCHClient)
  : outcome (gmap string string) * FreeSWITCHClient :=
  match commands with
  | [] => (Returns results, self)
  | command :: rest =>
      let '(r, self) := execute command self in
      match r with
      | Returns response =>
          execute_commands rest (<[command := response]> results) self
      | Raises e =>
          execute_commands rest (<[command := exn_str e]> results) self
      | Hangs => (Hangs, self)
      end
  end.

Definition execute_multiple_commands (commands : list string)
    (self : FreeSWITCHClient)
  : outcome (gmap string string) * FreeSWITCHClient :=
  execute_commands commands ∅ self.

(** ** csv.reader and csv.DictReader

    The reader of [_csv.c] for the dialect in use: [excel] with
    [delimiter='|'], hence [quotechar] the double quote, [doublequote] on,
    no [escapechar], no [skipinitialspace], not [strict].  (CPython 3.11 and
    later: a NUL is an ordinary character.) *)

Inductive csv_state :=
  | START_RECORD | START_FIELD | IN_FIELD | IN_QUOTED_FIELD
  | QUOTE_IN_QUOTED_FIELD | EAT_CRNL.

Instance csv_state_eq_dec : EqDecision csv_state.
Proof. solve_decision. Defined.

Record csv_parser := Parser {
  state : csv_state;
  fields : list string;
  field : string }.

Definition delimiter : ascii := "|"%char.
Definition quotechar : ascii := "034"%char.

Definition is_newline (c : ascii) : bool := Ascii.eqb c LF || Ascii.eqb c CR.

Definition parse_reset : csv_parser := Parser START_RECORD [] EmptyString.

Definition set_state (p : csv_parser) (st : csv_state) : csv_parser :=
  Parser st (fields p) (field p).

Definition parse_save_field (p : csv_parser) (st : csv_state) : csv_parser :=
  Parser st (fields p ++ [field p]) EmptyString.

Definition parse_add_char (p : csv_parser) (c : ascii) (st : csv_state)
  : csv_parser :=
  Parser st (fields p) (field p +:+ String c EmptyString).

Definition newline_in_field : exn :=
  Exn CsvError "new-line character seen in unquoted field - do you need to open the file with newline=''?".

(** The case [START_FIELD], which [START_RECORD] falls through to. *)
Definition start_field (p : csv_parser) (c : option ascii) : csv_parser :=
  match c with
  | None => parse_save_field p START_RECORD
  | Some ch =>
      if is_newline ch then parse_save_field p EAT_CRNL
      else if Ascii.eqb ch quotechar then set_state p IN_QUOTED_FIELD
      else if Ascii.eqb ch delimiter then parse_save_field p START_FIELD
      else parse_add_char p ch IN_FIELD
  end.

(** [parse_process_char]; the end of a line ([EOL]) is [None]. *)
Definition parse_process_char (p : csv_parser) (c : option ascii)
  : result csv_parser :=
  match state p with
  | START_RECORD =>
      match c with
      | None => Ok p
      | Some ch =>
          if is_newline ch then Ok (set_state p EAT_CRNL)
          else Ok (start_field p c)
      end
  | START_FIELD => Ok (start_field p c)
  | IN_FIELD =>
      match c with
      | None => Ok (parse_save_field p START_RECORD)
      | Some ch =>
          if is_newline ch then Ok (parse_save_field p EAT_CRNL)
          else if Ascii.eqb ch delimiter then Ok (parse_save_field p START_FIELD)
          else Ok (parse_add_char p ch IN_FIELD)
      end
  | IN_QUOTED_FIELD =>
      match c with
      | None => Ok p
      | Some ch =>
          if Ascii.eqb ch quotechar then Ok (set_state p QUOTE_IN_QUOTED_FIELD)
          else Ok (parse_add_char p ch IN_QUOTED_FIELD)
      end
  | QUOTE_IN_QUOTED_FIELD =>
      match c with
      | None => Ok (parse_save_field p START_RECORD)
      | Some ch =>
          if Ascii.eqb ch quotechar then Ok (parse_add_char p ch IN_QUOTED_FIELD)
          else if Ascii.eqb ch delimiter then Ok (parse_save_field p START_FIELD)
          else if is_newline ch then Ok (parse_save_field p EAT_CRNL)
          else Ok (parse_add_char p ch IN_FIELD)
      end
  | EAT_CRNL =>
      match c with
      | None => Ok (set_state p START_RECORD)
      | Some ch => if is_newline ch then Ok p else Raise newline_in_field
      end
  end.

(** Iterating over [StringIO(data)]: the lines of [data], each with its
    terminating line feed (the last one may lack it). *)
Fixpoint readlines (s : string) : list string :=
  match s with
  | EmptyString => []
  | String c t =>
      if Ascii.eqb c LF then String c EmptyString :: readlines t
      else match readlines t with
           | [] => [String c EmptyString]
           | l :: ls => String c l :: ls
           end
  end.

(** One line fed to the parser, character by character, then [EOL]. *)
Fixpoint feed (p : csv_parser) (line : string) : result csv_parser :=
  match line with
  | EmptyString => parse_process_char p None
  | String c t => p' <- parse_process_char p (Some c) ;; feed p' t
  end.

(** All the rows [csv.reader] yields: a record ends with the line that
    brings the parser back to [START_RECORD]; input that ends inside a
    record (an open quote) yields what was read. *)
Fixpoint reader (lines : list string) (p : csv_parser)
  : result (list (list string)) :=
  match lines with
  | [] =>
      if negb (String.eqb (field p) EmptyString)
         || bool_decide (state p = IN_QUOTED_FIELD)
      then Ok [fields p ++ [field p]]
      else Ok []
  | line :: rest =>
      p' <- feed p line ;;
      if bool_decide (state p' = START_RECORD)
      then rows <- reader rest parse_reset ;; Ok (fields p' :: rows)
      else reader rest p'
  end.

(** A row of a table as [DictReader] builds it: the cells under the field
    names, in [dict] order ([None] is [restval], for a row shorter than
    the header), and the cells beyond the header, which [DictReader] keeps
    as a list under the key [None] ([restkey]). *)
Record RawRecord := Row {
  columns : list (string * option string);
  surplus : option (list string) }.

(** [d[k] = v] on a [dict] kept in insertion order. *)
Fixpoint dict_set (k : string) (v : option string)
    (d : list (string * option string)) : list (string * option string) :=
  match d with
  | [] => [(k, v)]
  | (k', v') :: d' =>
      if String.eqb k k' then (k, v) :: d' else (k', v') :: dict_set k v d'
  end.

(** [dict(zip(fieldnames, row))], then [restval] for the names left. *)
Fixpoint zip_row (fieldnames row : list string)
    (d : list (string * option string)) {struct fieldnames}
  : list (string * option string) :=
  match fieldnames, row with
  | [], _ => d
  | k :: ks, v :: vs => zip_row ks vs (dict_set k (Some v) d)
  | k :: ks, [] => zip_row ks [] (dict_set k None d)
  end.

Definition to_record (fieldnames row : list string) : RawRecord :=
  Row (zip_row fieldnames row [])
      (if (length fieldnames <? length row)%nat
       then Some (drop (length fieldnames) row) else None).

Definition is_blank_row (row : list string) : bool :=
  match row with
  | [] => true
  | _ => false
  end.

(** [[row for row in csv.DictReader(...)]]: the first row names the fields,
    empty rows are skipped. *)
Definition DictReader (rows : list (list string)) : list RawRecord :=
  match rows with
  | [] => []
  | fieldnames :: rest =>
      map (to_record fieldnames) (filter (fun r => negb (is_blank_row r)) rest)
  end.

Definition invalid_format : exn := Exn ValueError "Invalid response format".

Definition parse_response (response : string) : result (list RawRecord) :=
  match item1 (split1 blank_line response) with
  | Raise _ => Raise invalid_format
  | Ok body =>
      rows <- reader (readlines (strip body)) parse_reset ;;
      Ok (DictReader rows)
  end.

(** [l.pop()], for its effect on the list. *)
Definition pop {A} (l : list A) : result (list A) :=
  match l with
  | [] => Raise (Exn IndexError "pop from empty list")
  | _ => Ok (removelast l)
  end.

(** [json.loads(json.dumps(row))]: strings and [None] come back as they
    were, in the same order.  The key [None] of the surplus cells comes
    back as the string ["null"]; no key that the program reads is
    ["null"], so the record is kept as it is. *)
Definition json_roundtrip (row : RawRecord) : RawRecord := row.

(** ** Values of the published metrics *)

(** [None], an [int], a [str], or the [float] [round(num / den, 2)], whose
    binary64 arithmetic is left uninterpreted. *)
Inductive pyval :=
  | PyNone
  | PyInt (n : Z)
  | PyStr (s : string)
  | PyRound2 (num den : Z).

Instance pyval_eq_dec : EqDecision pyval.
Proof. solve_decision. Defined.

Definition of_cell (v : option string) : pyval :=
  match v with
  | Some s => PyStr s
  | None => PyNone
  end.

(** [v == s] for a cell [v] and a string literal [s]. *)
Definition is_str (v : option string) (s : string) : bool :=
  bool_decide (v = Some s).

Fixpoint assoc (k : string) (d : list (string * option string))
  : option (option string) :=
  match d with
  | [] => None
  | (k', v) :: d' => if String.eqb k k' then Some v else assoc k d'
  end.

Definition key_error (k : string) : exn :=
  Exn KeyError (String "'" k +:+ String "'" EmptyString).

(** [row[k]] *)
Definition getitem (row : RawRecord) (k : string) : result (option string) :=
  match assoc k (columns row) with
  | Some v => Ok v
  | None => Raise (key_error k)
  end.

Definition int_of_none : exn :=
  Exn TypeError "int() argument must be a string, a bytes-like object or a real number, not 'NoneType'".

(** [int(v)] for a cell. *)
Definition int_of_cell (v : option string) : result Z :=
  match v with
  | Some s => int_of_str s
  | None => Raise int_of_none
  end.

(** [int(row.get(k, 0))] *)
Definition get_int (row : RawRecord) (k : string) : result Z :=
  match assoc k (columns row) with
  | Some v => int_of_cell v
  | None => Ok 0
  end.

Fixpoint foldM {A S} (f : A -> S -> result S) (l : list A) (s : S)
  : result S :=
  match l with
  | [] => Ok s
  | x :: xs => s' <- f x s ;; foldM f xs s'
  end.

(** ** Durations *)

(** [int(x)] for a [float]: truncation towards zero. *)
Definition int_of_float (x : Q) : Z :=
  if Qle_bool 0 x then Qfloor x else Qceiling x.

(** [f"{n:02}"] *)
Definition format02 (n : Z) : string :=
  if (0 <=? n) && (n <? 10) then String "0" (pretty n) else pretty n.

(** [convert_seconds_to_hhmmss].  Seconds are exact rationals: the
    rounding of binary64 arithmetic is not modelled. *)
Definition convert_seconds_to_hhmmss (seconds : Q) : string :=
  let hours := inject_Z (Qfloor (seconds / inject_Z 3600)) in
  let minutes :=
    inject_Z (Qfloor ((seconds - inject_Z 3600 * hours) / inject_Z 60)) in
  let seconds :=
    (seconds - inject_Z 60 * inject_Z (Qfloor (seconds / inject_Z 60)))%Q in
  format02 (int_of_float hours) +:+ String ":" (format02 (int_of_float minutes))
    +:+ String ":" (format02 (int_of_float seconds)).

(** ** QueueMetrics *)

Record QueueMetrics := Metrics {
  Name : pyval;
  Online : Z;
  InaQueueCall : Z;
  OnBreak : Z;
  ACW : Z;
  LoggedOut : Z;
  Available : Z;
  Idle : Z;
  Waiting : Z;
  Receiving : Z;
  Handled : Z;
  Abandoned : Z;
  AHT : pyval;
  SL60 : pyval }.

(** The factory of the [defaultdict]. *)
Definition new_metrics : QueueMetrics :=
  Metrics (PyStr EmptyString) 0 0 0 0 0 0 0 0 0 0 0 (PyInt 0) (PyInt 0).

(** [combined_data[queue_name]] *)
Definition entry (combined_data : gmap (option string) QueueMetrics)
    (queue_name : option string) : QueueMetrics :=
  default new_metrics (combined_data !! queue_name).

Definition service_level (handled abandoned : Z) : pyval :=
  let total_calls := handled + abandoned in
  if total_calls >? 0 then PyRound2 (handled * 100) total_calls else PyInt 0.

(** Lines 139-145: [Handled], [Abandoned] and [SL60] of the entry. *)
Definition seed (handled abandoned : Z) (m : QueueMetrics) : QueueMetrics :=
  Metrics (Name m) (Online m) (InaQueueCall m) (OnBreak m) (ACW m)
    (LoggedOut m) (Available m) (Idle m) (Waiting m) (Receiving m)
    handled abandoned (AHT m) (service_level handled abandoned).

Definition set_AHT (m : QueueMetrics) (v : pyval) : QueueMetrics :=
  Metrics (Name m) (Online m) (InaQueueCall m) (OnBreak m) (ACW m)
    (LoggedOut m) (Available m) (Idle m) (Waiting m) (Receiving m)
    (Handled m) (Abandoned m) v (SL60 m).

(** [1 if b else 0] *)
Definition one_if (b : bool) : Z := if b then 1 else 0.

(** Lines 155-164: the name and the nine counters, for one resolved agent. *)
Definition count_agent (queue_name status state : option string)
    (m : QueueMetrics) : QueueMetrics :=
  Metrics (of_cell queue_name)
    (Online m + one_if (negb (is_str status "Logged Out")))
    (InaQueueCall m + one_if (is_str state "In a queue call"))
    (OnBreak m + one_if (is_str status "On Break"))
    (ACW m + one_if (is_str status "Available (On Demand)"))
    (LoggedOut m + one_if (is_str status "Logged Out"))
    (Available m + one_if (is_str status "Available"
                           && negb (is_str state "In a queue call")
                           && negb (is_str state "Receiving")))
    (Idle m + one_if (is_str state "Idle"))
    (Waiting m + one_if (is_str state "Waiting" && is_str status "Available"))
    (Receiving m + one_if (is_str state "Receiving"))
    (Handled m) (Abandoned m) (AHT m) (SL60 m).

(** [any(tier["queue"] == queue_name for tier in tiers)] *)
Fixpoint any_tier (queue_name : option string) (tiers : list RawRecord)
  : result bool :=
  match tiers with
  | [] => Ok false
  | tier :: rest =>
      q <- getitem tier "queue" ;;
      if bool_decide (q = queue_name) then Ok true
      else any_tier queue_name rest
  end.

(** [[tier for tier in tiers if tier["queue"] == queue_name]] *)
Fixpoint queue_tiers (queue_name : option string) (tiers : list RawRecord)
  : result (list RawRecord) :=
  match tiers with
  | [] => Ok []
  | tier :: rest =>
      q <- getitem tier "queue" ;;
      l <- queue_tiers queue_name rest ;;
      Ok (if bool_decide (q = queue_name) then tier :: l else l)
  end.

(** [next((agent for agent in agents if agent["name"] == agent_name), None)] *)
Fixpoint find_agent (agent_name : option string) (agents : list RawRecord)
  : result (option RawRecord) :=
  match agents with
  | [] => Ok None
  | agent :: rest =>
      n <- getitem agent "name" ;;
      if bool_decide (n = agent_name) then Ok (Some agent)
      else find_agent agent_name rest
  end.

(** The two [int(...)] of the [try] block of lines 167-173. *)
Definition bridge_pair (agent : RawRecord) : result (Z * Z) :=
  s <- getitem agent "last_bridge_start" ;;
  last_bridge_start <- int_of_cell s ;;
  e <- getitem agent "last_bridge_end" ;;
  last_bridge_end <- int_of_cell e ;;
  Ok (last_bridge_start, last_bridge_end).

(** [except (ValueError, KeyError)] *)
Definition caught (e : exn) : bool :=
  bool_decide (exn_class e = ValueError) || bool_decide (exn_class e = KeyError).

Definition str_plus_int : exn :=
  Exn TypeError "can only concatenate str (not 'int') to str".

(** [m["AHT"] += d]: [AHT] is the [int] sum until the average of a queue
    has been formatted, a [str] afterwards. *)
Definition add_AHT (m : QueueMetrics) (d : Z) : result QueueMetrics :=
  match AHT m with
  | PyInt a => Ok (set_AHT m (PyInt (a + d)))
  | _ => Raise str_plus_int
  end.

(** Lines 167-173. *)
Definition handle_time (agent : RawRecord) (m : QueueMetrics)
    (aht_agent_count : Z) : result (QueueMetrics * Z) :=
  match bridge_pair agent with
  | Ok (last_bridge_start, last_bridge_end) =>
      m' <- add_AHT m (last_bridge_end - last_bridge_start) ;;
      Ok (m', aht_agent_count + 1)
  | Raise e => if caught e then Ok (m, aht_agent_count) else Raise e
  end.

(** The state of the loop over the queues: the [defaultdict], the list of
    the dicts appended so far (each a reference into the [defaultdict],
    kept as its key), and the counter of the average. *)
Record engine := Engine {
  combined_data : gmap (option string) QueueMetrics;
  combined_data_list : list (option string);
  aht_agent_count : Z }.

(** The body of [for tier in queue_tiers] (lines 150-173).  A row found
    by its ["name"] is a non-empty [dict], so [if agent:] holds exactly
    when an agent was found. *)
Definition process_tier (agents : list RawRecord) (queue_name : option string)
    (tier : RawRecord) (st : gmap (option string) QueueMetrics * Z)
  : result (gmap (option string) QueueMetrics * Z) :=
  agent_name <- getitem tier "agent" ;;
  agent <- find_agent agent_name agents ;;
  match agent with
  | None => Ok st
  | Some agent =>
      status <- getitem agent "status" ;;
      state <- getitem agent "state" ;;
      let m := count_agent queue_name status state (entry (fst st) queue_name) in
      r <- handle_time agent m (snd st) ;;
      Ok (<[queue_name := fst r]> (fst st), snd r)
  end.

Definition str_div_int : exn :=
  Exn TypeError "unsupported operand type(s) for /: 'str' and 'int'".

(** Lines 176-178. *)
Definition average (m : QueueMetrics) (aht_agent_count : Z)
  : result QueueMetrics :=
  if aht_agent_count >? 0 then
    match AHT m with
    | PyInt sum =>
        Ok (set_AHT m (PyStr (convert_seconds_to_hhmmss
                                (inject_Z sum / inject_Z aht_agent_count))))
    | _ => Raise str_div_int
    end
  else Ok m.

(** The body of [for queue in queues] (lines 135-184). *)
Definition process_queue (agents tiers : list RawRecord) (queue : RawRecord)
    (st : engine) : result engine :=
  queue_name <- getitem queue "name" ;;
  has_tiers <- any_tier queue_name tiers ;;
  if has_tiers then
    answered <- getitem queue "calls_answered" ;;
    handled <- int_of_cell answered ;;
    abandoned <- getitem queue "calls_abandoned" ;;
    abandoned <- int_of_cell abandoned ;;
    let cd :=
      <[queue_name := seed handled abandoned (entry (combined_data st) queue_name)]>
        (combined_data st) in
    ts <- queue_tiers queue_name tiers ;;
    r <- foldM (process_tier agents queue_name) ts (cd, aht_agent_count st) ;;
    m <- average (entry (fst r) queue_name) (snd r) ;;
    Ok (Engine (<[queue_name := m]> (fst r))
               (combined_data_list st ++ [queue_name]) 0)
  else Ok st.

Definition aggregate (agents tiers queues : list RawRecord) : result engine :=
  foldM (process_queue agents tiers) queues (Engine ∅ [] 0).

(** What [json.dumps(combined_data_list)] serialises: each reference of
    the list, read when the loop is over. *)
Definition queue_metrics (agents tiers queues : list RawRecord)
  : result (list QueueMetrics) :=
  st <- aggregate agents tiers queues ;;
  Ok (map (entry (combined_data st)) (combined_data_list st)).

(** ** AgentMetrics and the poll cycle *)

(** [str(v)] for a cell. *)
Definition str_of_cell (v : option string) : string :=
  match v with
  | Some s => s
  | None => "None"
  end.

Definition join_none : exn :=
  Exn TypeError "sequence item: expected str instance, NoneType found".

(** [", ".join(l)] *)
Fixpoint join_comma (l : list (option string)) : result string :=
  match l with
  | [] => Ok EmptyString
  | [None] => Raise join_none
  | [Some s] => Ok s
  | None :: _ => Raise join_none
  | Some s :: rest => r <- join_comma rest ;; Ok (s +:+ ", " +:+ r)
  end.

(** [[tier["queue"] for tier in tiers if tier["agent"] == agent["name"]]] *)
Fixpoint agent_queues (agent : RawRecord) (tiers : list RawRecord)
  : result (list (option string)) :=
  match tiers with
  | [] => Ok []
  | tier :: rest =>
      a <- getitem tier "agent" ;;
      n <- getitem agent "name" ;;
      if bool_decide (a = n) then
        q <- getitem tier "queue" ;;
        l <- agent_queues agent rest ;;
        Ok (q :: l)
      else agent_queues agent rest
  end.

(** [[(tier["level"], tier["position"]) for tier in tiers if ...]] *)
Fixpoint agent_levels_positions (agent : RawRecord) (tiers : list RawRecord)
  : result (list (option string * option string)) :=
  match tiers with
  | [] => Ok []
  | tier :: rest =>
      a <- getitem tier "agent" ;;
      n <- getitem agent "name" ;;
      if bool_decide (a = n) then
        level <- getitem tier "level" ;;
        position <- getitem tier "position" ;;
        l <- agent_levels_positions agent rest ;;
        Ok ((level, position) :: l)
      else agent_levels_positions agent rest
  end.

(** A snapshot stands for its JSON text ([json.dumps(..., indent=2)]): the
    list of the QueueMetrics dicts, or of the AgentMetrics dicts with their
    keys in the order of the dict display. *)
Inductive snapshot :=
  | QueueSnapshot (l : list QueueMetrics)
  | AgentSnapshot (l : list (list (string * pyval))).

Definition queue_key : string := "Realtime_Queue_Metrics_data".
Definition agent_key : string := "Realtime_Agent_Metrics_data".

(** How a call of [execute_and_process_commands] ends: after the second
    [redis_client.set], in the [except Exception] clause that prints the
    error, or never. *)
Inductive cycle_end :=
  | Published
  | Reported (e : exn)
  | NeverEnds.

Section cycle.

(** [time n] is what the [n]-th call of [time.time()] in the cycle
    returns. *)
Variable time : nat -> Q.

(** [calculate_duration_since_last_status_change], at the [tick]-th
    reading of the clock. *)
Definition calculate_duration_since_last_status_change
    (last_status_change_epoch : Z) (tick : nat) : string :=
  let current_time := time tick in
  let duration_seconds := (current_time - inject_Z last_status_change_epoch)%Q in
  convert_seconds_to_hhmmss duration_seconds.

(** The body of [for agent in agents] (lines 199-246): the dict of the
    agent if it has a tier, and the number of clock readings so far. *)
Definition agent_metrics (currenttimestamp_in_epoc : Q) (tiers : list RawRecord)
    (agent : RawRecord) (tick : nat)
  : result (option (list (string * pyval)) * nat) :=
  last_bridge_start <- get_int agent "last_bridge_start" ;;
  last_bridge_end <- get_int agent "last_bridge_end" ;;
  last_offered_call <- get_int agent "last_offered_call" ;;
  last_status_change_epoch <- get_int agent "last_status_change" ;;
  queues <- agent_queues agent tiers ;;
  levels_positions <- agent_levels_positions agent tiers ;;
  match queues with
  | [] => Ok (None, tick)
  | _ =>
      name <- getitem agent "name" ;;
      type <- getitem agent "type" ;;
      status <- getitem agent "status" ;;
      last_status_change <- getitem agent "last_status_change" ;;
      let '(Statusduration, tick) :=
        if negb (is_str last_status_change "0") then
          (PyStr (calculate_duration_since_last_status_change
                    last_status_change_epoch tick), S tick)
        else (PyInt 0, tick) in
      state <- getitem agent "state" ;;
      let contact_state :=
        if is_str state "In a queue call" then "In a queue call"
        else if is_str state "Receiving" then "Receiving"
        else if is_str status "Available (On Demand)" then "Available (On Demand)"
        else "-" in
      let '(Contact_state_Duration, tick) :=
        if is_str state "Receiving" then
          (convert_seconds_to_hhmmss
             (currenttimestamp_in_epoc - inject_Z last_offered_call), tick)
        else if is_str state "In a queue call" then
          (convert_seconds_to_hhmmss
             (currenttimestamp_in_epoc - inject_Z last_bridge_start), tick)
        else if is_str status "Available (On Demand)" then
          (calculate_duration_since_last_status_change
             last_status_change_epoch tick, S tick)
        else ("-", tick) in
      Queue <- join_comma queues ;;
      let '(ACW, tick) :=
        if is_str status "Available (On Demand)" then
          (calculate_duration_since_last_status_change
             last_status_change_epoch tick, S tick)
        else ("-", tick) in
      no_answer_count <- getitem agent "no_answer_count" ;;
      calls_answered <- getitem agent "calls_answered" ;;
      let LCHT :=
        if negb (is_str state "In a queue call") then
          convert_seconds_to_hhmmss (inject_Z (last_bridge_end - last_bridge_start))
        else "-" in
      Level <- join_comma (map (fun lp => Some (str_of_cell (fst lp)))
                               levels_positions) ;;
      Position <- join_comma (map (fun lp => Some (str_of_cell (snd lp)))
                                  levels_positions) ;;
      Ok (Some [("Name", of_cell name); ("Type", of_cell type);
                ("Status", of_cell status); ("Statusduration", Statusduration);
                ("Capacity", PyInt 1);
                ("Availability", PyInt (one_if (is_str status "Available")));
                ("contact_state", PyStr contact_state);
                ("Contact_state_Duration", PyStr Contact_state_Duration);
                ("Queue", PyStr Queue); ("ACW", PyStr ACW);
                ("Agent_non_response", of_cell no_answer_count);
                ("Calls_handled", of_cell calls_answered);
                ("LCHT", PyStr LCHT); ("Level", PyStr Level);
                ("Position", PyStr Position)], tick)
  end.

(** Lines 197-246. *)
Fixpoint agent_metrics_list (currenttimestamp_in_epoc : Q)
    (tiers agents : list RawRecord) (tick : nat)
  : result (list (list (string * pyval))) :=
  match agents with
  | [] => Ok []
  | agent :: rest =>
      r <- agent_metrics currenttimestamp_in_epoc tiers agent tick ;;
      l <- agent_metrics_list currenttimestamp_in_epoc tiers rest (snd r) ;;
      Ok (match fst r with
          | Some d => d :: l
          | None => l
          end)
  end.

(** [responses[command]] *)
Definition response_of (responses : gmap string string) (command : string)
  : result string :=
  match responses !! command with
  | Some r => Ok r
  | None => Raise (key_error command)
  end.

(** Lines 96-107: the three tables, each without its last row. *)
Definition tables (responses : gmap string string)
  : result (list RawRecord * list RawRecord * list RawRecord) :=
  r <- response_of responses "callcenter_config agent list" ;;
  agent_data <- parse_response r ;;
  r <- response_of responses "callcenter_config tier list" ;;
  tier_data <- parse_response r ;;
  r <- response_of responses "callcenter_config queue list" ;;
  queue_data <- parse_response r ;;
  agent_data <- pop agent_data ;;
  tier_data <- pop tier_data ;;
  queue_data <- pop queue_data ;;
  Ok (map json_roundtrip agent_data, map json_roundtrip tier_data,
      map json_roundtrip queue_data).

(** [execute_and_process_commands].  The store is the map of its keys;
    [redis_client.set] is taken to succeed.  The first reading of the
    clock is [currenttimestamp_in_epoc]. *)
Definition execute_and_process_commands (client : FreeSWITCHClient)
    (commands : list string) (redis_client : gmap string snapshot)
  : cycle_end * FreeSWITCHClient * gmap string snapshot :=
  let currenttimestamp_in_epoc := time 0 in
  let '(r, client) := execute_multiple_commands commands client in
  match r with
  | Hangs => (NeverEnds, client, redis_client)
  | Raises e => (Reported e, client, redis_client)
  | Returns responses =>
      match tables responses with
      | Raise e => (Reported e, client, redis_client)
      | Ok (agents, tiers, queues) =>
          match queue_metrics agents tiers queues with
          | Raise e => (Reported e, client, redis_client)
          | Ok combined_data_list =>
              let redis_client :=
                <[queue_key := QueueSnapshot combined_data_list]> redis_client in
              match agent_metrics_list currenttimestamp_in_epoc tiers agents 1 with
              | Raise e => (Reported e, client, redis_client)
              | Ok agent_metrics_list =>
                  (Published, client,
                   <[agent_key := AgentSnapshot agent_metrics_list]> redis_client)
              end
          end
      end
  end.

End cycle.

(** * Properties *)

(** ** SL60 *)

(** C2: for non-negative [Handled] and [Abandoned], the [SL60] that lines
    139-145 store in the entry of the queue is [0] when
    [Handled + Abandoned == 0] and [round(Handled * 100 / (Handled +
    Abandoned), 2)] otherwise; [Handled] and [Abandoned] are stored as
    given. *)
Theorem seed_service_level (handled abandoned : Z) (m : QueueMetrics) :
  0 <= handled -> 0 <= abandoned ->
  Handled (seed handled abandoned m) = handled
  /\ Abandoned (seed handled abandoned m) = abandoned
  /\ SL60 (seed handled abandoned m)
     = if handled + abandoned =? 0 then PyInt 0
       else PyRound2 (handled * 100) (handled + abandoned).
Proof.
  intros Hh Ha. cbn [seed Handled Abandoned SL60].
  repeat split. unfold service_level.
  destruct (Z.eqb_spec (handled + abandoned) 0) as [E | E].
  - rewrite E. reflexivity.
  - destruct (Z.gtb_spec (handled + abandoned) 0) as [G | G];
      [reflexivity | lia].
Qed.

Lemma seed_service_level_witness :
  SL60 (seed 3 1 new_metrics) = PyRound2 300 4
  /\ SL60 (seed 0 0 new_metrics) = PyInt 0.
Proof.
  split.
  - apply (seed_service_level 3 1 new_metrics); lia.
  - apply (seed_service_level 0 0 new_metrics); lia.
Defined.

(** ** connect *)

(** C7, as the code has it: an endpoint whose first chunk lacks
    [Content-Type: auth/request] and an endpoint whose reply to [auth]
    lacks [Reply-Text: +OK] both make [connect] raise the built-in
    [ConnectionError]; the two failures differ by their message only. *)
Theorem connect_failures (pw : string) (first : string)
    (greeting : list string) (answers : list (list string)) (closes : bool)
    (first' reply : string) (greeting' : list string)
    (answers' : list (list string)) (closes' : bool) (s : socket) :
  contains "Content-Type: auth/request" first = false ->
  contains "Content-Type: auth/request" first' = true ->
  recv (Socket true (greeting' ++ hd [] answers') (tl answers') closes'
               [ "auth " +:+ pw +:+ blank_line ]) = (Ok reply, s) ->
  contains "Reply-Text: +OK" reply = false ->
  fst (connect (Client (Listening (first :: greeting) answers closes) pw None))
    = Raise connect_failed
  /\ fst (connect (Client (Listening (first' :: greeting') answers' closes')
                          pw None))
     = Raise auth_failed
  /\ exn_class connect_failed = ConnectionError
  /\ exn_class auth_failed = ConnectionError
  /\ exn_str connect_failed <> exn_str auth_failed.
Proof.
  intros H1 H2 H3 H4. repeat split; try discriminate.
  - unfold connect, handshake, recv. cbn. rewrite H1. reflexivity.
  - unfold connect, handshake. cbn [connection host_port password].
    unfold recv at 1. cbn [connected inbox].
    rewrite H2. unfold send, with_inbox.
    cbn [connected inbox replies eof sent app].
    rewrite H3, H4. reflexivity.
Qed.

Definition auth_request : string :=
  "Content-Type: auth/request" +:+ blank_line.
Definition reply_ok : string :=
  "Content-Type: command/reply" +:+ String LF "Reply-Text: +OK accepted"
    +:+ blank_line.
Definition reply_err : string :=
  "Content-Type: command/reply" +:+ String LF "Reply-Text: -ERR invalid"
    +:+ blank_line.

Lemma connect_failures_witness :
  fst (connect (Client (Listening ["HTTP/1.1 400 Bad Request"] [] false)
                       "ClueCon" None))
    = Raise connect_failed
  /\ fst (connect (Client (Listening [auth_request] [[reply_err]] false)
                          "ClueCon" None))
     = Raise auth_failed.
Proof.
  pose proof (connect_failures "ClueCon" "HTTP/1.1 400 Bad Request" [] [] false
                auth_request reply_err [] [[reply_err]] false
                (Socket true [] [] false ["auth ClueCon" +:+ blank_line])
                eq_refl eq_refl eq_refl eq_refl) as H.
  split; [exact (proj1 H) | exact (proj1 (proj2 H))].
Defined.

(** C7 as stated fails: the failure on a missing auth request and the
    failure on a rejected password are of one and the same error kind. *)
Lemma connect_failures_same_kind :
  exists e1 e2,
    fst (connect (Client (Listening ["HTTP/1.1 400 Bad Request"] [] false)
                         "ClueCon" None)) = Raise e1
    /\ fst (connect (Client (Listening [auth_request] [[reply_err]] false)
                            "ClueCon" None)) = Raise e2
    /\ ~ exn_class e1 <> exn_class e2.
Proof.
  exists connect_failed, auth_failed.
  split; [reflexivity |]. split; [reflexivity |].
  intros H. apply H. reflexivity.
Qed.

(** ** Strings *)

Lemma app_String (c : ascii) (a b : string) :
  String c a +:+ b = String c (a +:+ b).
Proof. reflexivity. Qed.

Lemma app_Empty (b : string) : EmptyString +:+ b = b.
Proof. reflexivity. Qed.

Lemma app_assoc_string (a b c : string) : (a +:+ b) +:+ c = a +:+ (b +:+ c).
Proof.
  induction a as [| x a IH]; rewrite ?app_Empty, ?app_String;
    [reflexivity | f_equal; exact IH].
Qed.

Lemma app_nil_r_string (a : string) : a +:+ EmptyString = a.
Proof.
  induction a as [| x a IH]; rewrite ?app_Empty, ?app_String;
    [reflexivity | f_equal; exact IH].
Qed.

Lemma length_app_string (a b : string) :
  String.length (a +:+ b) = (String.length a + String.length b)%nat.
Proof.
  induction a as [| x a IH]; rewrite ?app_Empty, ?app_String; cbn;
    [reflexivity | f_equal; exact IH].
Qed.

Lemma startswith_app_l (p s r : string) :
  startswith p s = true -> startswith p (s +:+ r) = true.
Proof.
  revert s. induction p as [| a p IH]; intros [| b s];
    rewrite ?app_Empty, ?app_String; cbn; try easy.
  intros H. apply andb_prop in H as [-> H]. cbn. auto.
Qed.

Lemma startswith_length (p s : string) :
  startswith p s = true -> (String.length p <= String.length s)%nat.
Proof.
  revert s. induction p as [| a p IH]; intros [| b s]; cbn; try easy; try lia.
  intros H. apply andb_prop in H as [_ H]. apply IH in H. lia.
Qed.

Lemma startswith_app_inv (p s r : string) :
  (String.length p <= String.length s)%nat ->
  startswith p (s +:+ r) = true -> startswith p s = true.
Proof.
  revert s. induction p as [| a p IH]; intros [| b s];
    rewrite ?app_Empty, ?app_String; cbn; try easy; try lia.
  intros L H. apply andb_prop in H as [-> H]. cbn. apply IH; [lia | exact H].
Qed.

Lemma drop_chars_app (n : nat) (s r : string) :
  (n <= String.length s)%nat -> drop_chars n (s +:+ r) = drop_chars n s +:+ r.
Proof.
  revert s. induction n as [| n IH]; intros [| b s];
    rewrite ?app_Empty, ?app_String; cbn; try easy; try lia.
  intros L. apply IH. lia.
Qed.

Lemma length_drop_chars (n : nat) (s : string) :
  String.length (drop_chars n s) = (String.length s - n)%nat.
Proof.
  revert s. induction n as [| n IH]; intros [| b s]; cbn; try easy.
Qed.

Lemma take_digits_app (x r : string) :
  exists d, take_digits (x +:+ r) = take_digits x +:+ d.
Proof.
  induction x as [| c x [d IH]]; rewrite ?app_Empty, ?app_String; cbn.
  - exists (take_digits r). reflexivity.
  - destruct (is_digit c).
    + exists d. rewrite app_String. now rewrite IH.
    + exists EmptyString. reflexivity.
Qed.

(** A run of decimal digits. *)
Fixpoint all_digits (s : string) : bool :=
  match s with
  | EmptyString => true
  | String c t => is_digit c && all_digits t
  end.

Lemma all_digits_take_digits (s : string) : all_digits (take_digits s) = true.
Proof.
  induction s as [| c s IH]; cbn; [reflexivity |].
  destruct (is_digit c) eqn:E; cbn; [now rewrite E | reflexivity].
Qed.

Lemma digit_value_nonneg (c : ascii) : is_digit c = true -> 0 <= digit_value c.
Proof.
  unfold is_digit, digit_value. intros H. apply andb_prop in H as [H _].
  apply Nat.leb_le in H. lia.
Qed.

Lemma digits_value_app (acc : Z) (a b : string) :
  digits_value acc (a +:+ b) = digits_value (digits_value acc a) b.
Proof.
  revert acc. induction a as [| c a IH]; intros acc;
    rewrite ?app_Empty, ?app_String; cbn; auto.
Qed.

Lemma digits_value_ge (acc : Z) (s : string) :
  0 <= acc -> all_digits s = true -> acc <= digits_value acc s.
Proof.
  revert acc. induction s as [| c s IH]; intros acc Hacc H; cbn; [lia |].
  cbn in H. apply andb_prop in H as [Hc Hs]. apply digit_value_nonneg in Hc.
  specialize (IH (10 * acc + digit_value c) ltac:(lia) Hs). lia.
Qed.

Lemma all_digits_app_l (a b : string) :
  all_digits (a +:+ b) = true -> all_digits a = true /\ all_digits b = true.
Proof.
  induction a as [| c a IH]; rewrite ?app_Empty, ?app_String; cbn; [auto |].
  intros H. apply andb_prop in H as [-> H]. cbn. auto.
Qed.

(** ** The pattern [Content-Length: (\d+)] on a growing buffer *)

Lemma match_here_app (s r ds : string) :
  match_here s = Some ds ->
  exists ds', match_here (s +:+ r) = Some (ds +:+ ds').
Proof.
  unfold match_here.
  destruct (startswith content_length_pattern s) eqn:E; [| discriminate].
  rewrite (startswith_app_l _ _ r E).
  rewrite drop_chars_app by (apply startswith_length in E; exact E).
  destruct (take_digits_app (drop_chars 16 s) r) as [d Hd]. rewrite Hd.
  destruct (take_digits (drop_chars 16 s)) as [| c x]; [discriminate |].
  intros [= <-]. exists d. reflexivity.
Qed.

Lemma match_here_length (s ds : string) :
  match_here s = Some ds -> (17 <= String.length s)%nat.
Proof.
  unfold match_here.
  destruct (startswith content_length_pattern s) eqn:E; [| discriminate].
  apply startswith_length in E. change (16 <= String.length s)%nat in E.
  pose proof (length_drop_chars 16 s) as L.
  destruct (drop_chars 16 s) as [| c x]; [discriminate |].
  cbn in L. lia.
Qed.

Lemma match_here_all_digits (s ds : string) :
  match_here s = Some ds -> all_digits ds = true.
Proof.
  unfold match_here.
  destruct (startswith content_length_pattern s); [| discriminate].
  pose proof (all_digits_take_digits (drop_chars 16 s)) as H.
  destruct (take_digits (drop_chars 16 s)); [discriminate |].
  intros [= <-]. exact H.
Qed.

Lemma match_here_none_app (s r : string) :
  (17 <= String.length s)%nat ->
  match_here s = None -> match_here (s +:+ r) = None.
Proof.
  unfold match_here. intros L.
  destruct (startswith content_length_pattern (s +:+ r)) eqn:E; [| reflexivity].
  apply startswith_app_inv in E; [| cbn; lia]. rewrite E.
  rewrite drop_chars_app by lia.
  pose proof (length_drop_chars 16 s) as Ld.
  destruct (drop_chars 16 s) as [| c x]; [cbn in Ld; lia |].
  rewrite app_String. cbn [take_digits].
  destruct (is_digit c); [discriminate | easy].
Qed.

Lemma search_content_length_length (s ds : string) :
  search_content_length s = Some ds -> (17 <= String.length s)%nat.
Proof.
  induction s as [| c s IH].
  - cbn. discriminate.
  - cbn [search_content_length].
    destruct (match_here (String c s)) eqn:E.
    + intros _. eapply match_here_length, E.
    + intros H. apply IH in H. cbn. lia.
Qed.

Lemma search_content_length_all_digits (s ds : string) :
  search_content_length s = Some ds -> all_digits ds = true.
Proof.
  induction s as [| c s IH].
  - cbn. discriminate.
  - cbn [search_content_length].
    destruct (match_here (String c s)) eqn:E.
    + intros [= <-]. eapply match_here_all_digits, E.
    + exact IH.
Qed.

(** A match found in what has been received so far stays where it is when
    more arrives; only its run of digits may grow. *)
Lemma search_content_length_app (s r ds : string) :
  search_content_length s = Some ds ->
  exists ds', search_content_length (s +:+ r) = Some (ds +:+ ds').
Proof.
  induction s as [| c s IH].
  - cbn. discriminate.
  - cbn [search_content_length].
    destruct (match_here (String c s)) eqn:E.
    + intros [= <-]. destruct (match_here_app _ r _ E) as [d Hd].
      exists d. change (String c s +:+ r) with (String c (s +:+ r)).
      cbn [search_content_length].
      change (String c (s +:+ r)) with (String c s +:+ r). now rewrite Hd.
    + intros H. destruct (IH H) as [d Hd]. exists d.
      change (String c s +:+ r) with (String c (s +:+ r)).
      cbn [search_content_length].
      change (String c (s +:+ r)) with (String c s +:+ r).
      rewrite match_here_none_app; [exact Hd | | exact E].
      apply search_content_length_length in H. cbn. lia.
Qed.

(** Everything the peer sends, as one text. *)
Definition received (chunks : list string) : string :=
  foldr String.append EmptyString chunks.

Definition exhausted (at_eof : bool) : outcome string :=
  if at_eof then Hangs else Raises timed_out.

Lemma recv_loop_zero (chunks : list string) (at_eof : bool)
    (response : string) (content_length : option Z) :
  content_length = Some 0
  \/ (content_length = None
      /\ exists ds, search_content_length (response +:+ received chunks) = Some ds
                    /\ digits_value 0 ds = 0) ->
  fst (recv_loop chunks at_eof response content_length) = exhausted at_eof.
Proof.
  revert response content_length.
  induction chunks as [| part rest IH]; intros response cl H.
  - reflexivity.
  - cbn [recv_loop]. destruct H as [-> | [-> [ds [Hs Hv]]]].
    + cbn. apply IH. now left.
    + cbn [received foldr] in Hs. rewrite <- app_assoc_string in Hs.
      destruct (search_content_length (response +:+ part)) as [d |] eqn:E.
      * destruct (search_content_length_app _ (received rest) _ E) as [d' Hd].
        unfold received in Hd. rewrite Hs in Hd. injection Hd as ->.
        assert (digits_value 0 d = 0) as ->.
        { rewrite digits_value_app in Hv.
          apply search_content_length_all_digits in Hs.
          apply all_digits_app_l in Hs as [Ha Hb].
          pose proof (digits_value_ge 0 d ltac:(lia) Ha).
          pose proof (digits_value_ge (digits_value 0 d) d' ltac:(lia) Hb).
          lia. }
        cbn. apply IH. now left.
      * apply IH. right. split; [reflexivity |]. exists ds. now split.
Qed.

(** ** The frame reader *)

(** C9: when the leftmost [Content-Length] header of what the peer sends
    has the value 0, the reader never returns, however the text is cut
    into chunks: the loop ends by the timeout of [recv], or, when the peer
    has closed the connection, not at all. *)
Theorem zero_content_length_never_returns (chunks : list string)
    (at_eof : bool) (ds : string) :
  search_content_length (received chunks) = Some ds ->
  digits_value 0 ds = 0 ->
  fst (recv_loop chunks at_eof EmptyString None)
    = if at_eof then Hangs else Raises timed_out.
Proof.
  intros Hs Hv. apply recv_loop_zero. right. split; [reflexivity |].
  exists ds. now split.
Qed.

Definition empty_frame : string :=
  "Content-Type: api/response" +:+ String LF "Content-Length: 0" +:+ blank_line.

Lemma zero_content_length_never_returns_witness :
  fst (recv_loop [empty_frame] false EmptyString None) = Raises timed_out
  /\ fst (recv_loop ["Content-Type: api/response"; String LF "Content-Length: 0";
                     blank_line; "-ERR no reply"] true EmptyString None) = Hangs.
Proof.
  split.
  - apply (zero_content_length_never_returns [empty_frame] false "0");
      reflexivity.
  - apply (zero_content_length_never_returns
             ["Content-Type: api/response"; String LF "Content-Length: 0";
              blank_line; "-ERR no reply"] true "0"); reflexivity.
Defined.

(** C5, at a frame the claim covers and the reader misses: the frame
    advertises [Content-Length: 0] and its body, the text after the blank
    line, has length 0, yet the reader, given the whole frame, does not
    return it and ends by the timeout. *)
Theorem recv_response_empty_body :
  item1 (split1 blank_line empty_frame) = Ok EmptyString
  /\ search_content_length empty_frame = Some "0"
  /\ fst (_recv_response (Socket true [empty_frame] [] false []))
     = Raises timed_out.
Proof. repeat split. Qed.

(** The reader also fails when the header section arrives in two chunks,
    cut after the digits of [Content-Length]. *)
Lemma recv_response_header_cut :
  fst (_recv_response
         (Socket true ["Content-Length: 5"; blank_line +:+ "hello"] [] false []))
  = Raises (Exn IndexError "list index out of range").
Proof. reflexivity. Qed.

(** ** execute_multiple_commands *)













Definition frame_of (body : string) : string :=
  "Content-Type: api/response" +:+ String LF "Content-Length: "
    +:+ pretty (Z.of_nat (String.length body)) +:+ blank_line +:+ body.


Ltac by_decide :=
  match goal with
  | |- ?P => apply (bool_decide_unpack P); vm_compute; exact I
  end.


(** ** The counters of a queue *)

(** A row of a table, from its cells. *)
Definition row (cells : list (string * string)) : RawRecord :=
  Row (map (fun kv => (fst kv, Some (snd kv))) cells) None.

Lemma handle_time_counters (agent : RawRecord) (m m' : QueueMetrics)
    (n n' : Z) :
  handle_time agent m n = Ok (m', n') ->
  Name m' = Name m /\ Online m' = Online m
  /\ InaQueueCall m' = InaQueueCall m /\ OnBreak m' = OnBreak m
  /\ ACW m' = ACW m /\ LoggedOut m' = LoggedOut m
  /\ Available m' = Available m /\ Idle m' = Idle m
  /\ Waiting m' = Waiting m /\ Receiving m' = Receiving m
  /\ Handled m' = Handled m /\ Abandoned m' = Abandoned m
  /\ SL60 m' = SL60 m.
Proof.
  unfold handle_time. destruct (bridge_pair agent) as [[s e] | ex].
  - unfold add_AHT. destruct (AHT m); try discriminate.
    intros [= <- _]. cbn. repeat split.
  - destruct (caught ex); [| discriminate]. intros [= <- _]. repeat split.
Qed.

Definition agent_A : RawRecord :=
  row [("name", "A"); ("status", "Available"); ("state", "Idle")].
Definition agent_B (state : option string) : RawRecord :=
  Row [("name", Some "B"); ("status", Some "Logged Out"); ("state", state)]
      None.
Definition tiers_A_B : list RawRecord :=
  [row [("queue", "support"); ("agent", "A")];
   row [("queue", "support"); ("agent", "B")]].
Definition queue_support : RawRecord :=
  row [("name", "support"); ("calls_answered", "0"); ("calls_abandoned", "0")].

Lemma entry_insert (cd : gmap (option string) QueueMetrics)
    (k : option string) (m : QueueMetrics) :
  entry (<[k := m]> cd) k = m.
Proof. unfold entry. now rewrite lookup_insert_eq. Qed.

Lemma entry_empty (k : option string) : entry ∅ k = new_metrics.
Proof. unfold entry. now rewrite lookup_empty. Qed.

Lemma entry_insert_ne (cd : gmap (option string) QueueMetrics)
    (k k' : option string) (m : QueueMetrics) :
  k <> k' -> entry (<[k := m]> cd) k' = entry cd k'.
Proof. intros H. unfold entry. now rewrite lookup_insert_ne. Qed.

Lemma count_agent_logged_out (k b_state : option string) (m : QueueMetrics) :
  is_str b_state "Idle" = false ->
  is_str b_state "In a queue call" = false ->
  is_str b_state "Receiving" = false ->
  count_agent k (Some "Logged Out") b_state m
  = Metrics (of_cell k) (Online m) (InaQueueCall m) (OnBreak m) (ACW m)
      (LoggedOut m + 1) (Available m) (Idle m) (Waiting m) (Receiving m)
      (Handled m) (Abandoned m) (AHT m) (SL60 m).
Proof.
  intros H1 H2 H3. unfold count_agent. rewrite H1, H2, H3.
  change (is_str (Some "Logged Out") "Logged Out") with true.
  change (is_str (Some "Logged Out") "On Break") with false.
  change (is_str (Some "Logged Out") "Available (On Demand)") with false.
  change (is_str (Some "Logged Out") "Available") with false.
  rewrite andb_false_r. cbn [negb one_if andb]. rewrite !Z.add_0_r.
  reflexivity.
Qed.

Lemma handle_time_A (m : QueueMetrics) (n : Z) :
  handle_time agent_A m n = Ok (m, n).
Proof. reflexivity. Qed.

Lemma handle_time_B (b_state : option string) (m : QueueMetrics) (n : Z) :
  handle_time (agent_B b_state) m n = Ok (m, n).
Proof. reflexivity. Qed.

Lemma support_scenario (b_state : option string) :
  is_str b_state "Idle" = false ->
  is_str b_state "In a queue call" = false ->
  is_str b_state "Receiving" = false ->
  queue_metrics [agent_A; agent_B b_state] tiers_A_B [queue_support]
  = Ok [Metrics (PyStr "support") 1 0 0 0 1 1 1 0 0 0 0 (PyInt 0) (PyInt 0)].
Proof.
  intros H1 H2 H3.
  unfold queue_metrics, aggregate. cbn [foldM]. unfold process_queue.
  change (getitem queue_support "name") with (Ok (Some "support")).
  cbn [bindR].
  change (any_tier (Some "support") tiers_A_B) with (Ok true).
  cbn [bindR].
  change (getitem queue_support "calls_answered") with (Ok (Some "0")).
  change (getitem queue_support "calls_abandoned") with (Ok (Some "0")).
  cbn [bindR].
  change (int_of_cell (Some "0")) with (Ok 0). cbn [bindR].
  change (queue_tiers (Some "support") tiers_A_B) with (Ok tiers_A_B).
  cbn [bindR combined_data aht_agent_count combined_data_list].
  unfold tiers_A_B at 1. cbn [foldM]. unfold process_tier at 1.
  change (getitem (row [("queue", "support"); ("agent", "A")]) "agent")
    with (Ok (Some "A")).
  cbn [bindR].
  change (find_agent (Some "A") [agent_A; agent_B b_state])
    with (Ok (Some agent_A)).
  cbn [bindR].
  change (getitem agent_A "status") with (Ok (Some "Available")).
  change (getitem agent_A "state") with (Ok (Some "Idle")).
  cbn [bindR fst snd].
  rewrite entry_insert, handle_time_A. cbn [bindR fst snd].
  unfold process_tier.
  change (getitem (row [("queue", "support"); ("agent", "B")]) "agent")
    with (Ok (Some "B")).
  cbn [bindR].
  change (find_agent (Some "B") [agent_A; agent_B b_state])
    with (Ok (Some (agent_B b_state))).
  cbn [bindR].
  change (getitem (agent_B b_state) "status") with (Ok (Some "Logged Out")).
  change (getitem (agent_B b_state) "state") with (Ok b_state).
  cbn [bindR fst snd].
  rewrite entry_insert, handle_time_B, count_agent_logged_out by assumption.
  cbn [bindR fst snd]. rewrite entry_insert.
  change (entry ∅ (Some "support")) with new_metrics.
  unfold average. cbn [Z.gtb Z.compare bindR combined_data combined_data_list
                       app map].
  rewrite entry_insert. reflexivity.
Qed.

(** C1, as the code has it: a tier of the queue whose agent is found adds
    to each of the nine counters 1 when its predicate holds and 0
    otherwise, each predicate on its own; and for a queue with tiers on A
    (status Available, state Idle) and B (status Logged Out, in a state
    other than Idle, In a queue call and Receiving), the metrics have
    [Online = 1], [Idle = 1], [LoggedOut = 1] and also [Available = 1], all
    other counters being 0. *)
Theorem counters_by_predicate (agents : list RawRecord)
    (queue_name agent_name status state : option string)
    (tier agent : RawRecord)
    (cd cd' : gmap (option string) QueueMetrics) (n n' : Z)
    (b_state : option string) :
  getitem tier "agent" = Ok agent_name ->
  find_agent agent_name agents = Ok (Some agent) ->
  getitem agent "status" = Ok status ->
  getitem agent "state" = Ok state ->
  process_tier agents queue_name tier (cd, n) = Ok (cd', n') ->
  is_str b_state "Idle" = false ->
  is_str b_state "In a queue call" = false ->
  is_str b_state "Receiving" = false ->
  (let m := entry cd queue_name in
   let m' := entry cd' queue_name in
   Online m' = Online m + one_if (negb (is_str status "Logged Out"))
   /\ InaQueueCall m' = InaQueueCall m + one_if (is_str state "In a queue call")
   /\ OnBreak m' = OnBreak m + one_if (is_str status "On Break")
   /\ ACW m' = ACW m + one_if (is_str status "Available (On Demand)")
   /\ LoggedOut m' = LoggedOut m + one_if (is_str status "Logged Out")
   /\ Available m'
      = Available m + one_if (is_str status "Available"
                              && negb (is_str state "In a queue call")
                              && negb (is_str state "Receiving"))
   /\ Idle m' = Idle m + one_if (is_str state "Idle")
   /\ Waiting m'
      = Waiting m + one_if (is_str state "Waiting" && is_str status "Available")
   /\ Receiving m' = Receiving m + one_if (is_str state "Receiving"))
  /\ queue_metrics [agent_A; agent_B b_state] tiers_A_B [queue_support]
     = Ok [Metrics (PyStr "support") 1 0 0 0 1 1 1 0 0 0 0 (PyInt 0) (PyInt 0)].
Proof.
  intros Ht Hf Hs1 Hs2 Hp Hb1 Hb2 Hb3. split.
  - unfold process_tier in Hp. rewrite Ht in Hp. cbn [bindR] in Hp.
    rewrite Hf in Hp. cbn [bindR] in Hp. rewrite Hs1, Hs2 in Hp.
    cbn [bindR fst snd] in Hp.
    destruct (handle_time agent _ n) as [[m1 n1] | ex] eqn:E; [| discriminate].
    cbn [bindR fst snd] in Hp. injection Hp as <- <-.
    apply handle_time_counters in E.
    assert (Hm : entry (<[queue_name := m1]> cd) queue_name = m1)
      by (unfold entry; now rewrite lookup_insert_eq).
    cbv zeta. rewrite Hm. cbn [count_agent Online InaQueueCall OnBreak ACW LoggedOut
                        Available Idle Waiting Receiving] in E.
    intuition congruence.
  - now apply support_scenario.
Qed.

Lemma counters_by_predicate_witness :
  queue_metrics [agent_A; agent_B (Some "Waiting")] tiers_A_B [queue_support]
  = Ok [Metrics (PyStr "support") 1 0 0 0 1 1 1 0 0 0 0 (PyInt 0) (PyInt 0)].
Proof.
  exact (proj2 (counters_by_predicate
                  [agent_A; agent_B (Some "Waiting")]
                  (Some "support") (Some "A") (Some "Available") (Some "Idle")
                  (row [("queue", "support"); ("agent", "A")]) agent_A
                  ∅
                  (<[Some "support" :=
                       count_agent (Some "support") (Some "Available")
                                   (Some "Idle") new_metrics]> ∅)
                  0 0 (Some "Waiting")
                  eq_refl eq_refl eq_refl eq_refl eq_refl
                  eq_refl eq_refl eq_refl)).
Defined.

(** C1 as stated fails: with A available and idle, [Available] is 1, so
    the counters other than [Online], [Idle] and [LoggedOut] are not all
    0. *)
Lemma counters_scenario_available :
  exists m,
    queue_metrics [agent_A; agent_B (Some "Waiting")] tiers_A_B [queue_support]
      = Ok [m]
    /\ Online m = 1 /\ Idle m = 1 /\ LoggedOut m = 1
    /\ ~ (InaQueueCall m = 0 /\ OnBreak m = 0 /\ ACW m = 0 /\ Available m = 0
          /\ Waiting m = 0 /\ Receiving m = 0).
Proof.
  eexists. split; [vm_compute; reflexivity |].
  cbn. repeat split. intros (_ & _ & _ & H & _). discriminate.
Qed.

(** ** The loop over the queues *)

Ltac bind_inv H :=
  match type of H with
  | bindR ?m _ = Ok _ =>
      let E := fresh "E" in
      destruct m eqn:E; [cbn [bindR] in H | discriminate H]
  end.

Lemma foldM_invariant {A S} (f : A -> S -> result S) (P : S -> Prop)
    (l : list A) (s s' : S) :
  P s ->
  (forall x s1 s2, x ∈ l -> P s1 -> f x s1 = Ok s2 -> P s2) ->
  foldM f l s = Ok s' -> P s'.
Proof.
  revert s. induction l as [| x l IH]; intros s Hs Hstep H; cbn in H.
  - now injection H as <-.
  - bind_inv H. apply (IH a); [| | exact H].
    + apply (Hstep x s); [left | exact Hs | exact E].
    + intros y s1 s2 Hy. apply Hstep. now right.
Qed.

Lemma foldM_app {A S} (f : A -> S -> result S) (l1 l2 : list A) (s : S) :
  foldM f (l1 ++ l2) s = bindR (foldM f l1 s) (foldM f l2).
Proof.
  revert s. induction l1 as [| x l1 IH]; intros s; cbn; [reflexivity |].
  destruct (f x s); cbn; [apply IH | reflexivity].
Qed.

Lemma queue_tiers_spec (k : option string) (tiers ts : list RawRecord) :
  queue_tiers k tiers = Ok ts ->
  forall t, t ∈ ts -> t ∈ tiers /\ getitem t "queue" = Ok k.
Proof.
  revert ts. induction tiers as [| tier rest IH]; intros ts H t Ht; cbn in H.
  - injection H as <-. inversion Ht.
  - bind_inv H. bind_inv H. injection H as <-.
    destruct (bool_decide_reflect (a = k)) as [-> | Hne].
    + apply elem_of_cons in Ht as [-> | Ht].
      * split; [left | exact E].
      * destruct (IH _ eq_refl t Ht). split; [now right | easy].
    + destruct (IH _ eq_refl t Ht). split; [now right | easy].
Qed.

Lemma process_tier_inv (agents : list RawRecord) (k : option string)
    (tier : RawRecord) (cd cd' : gmap (option string) QueueMetrics)
    (n n' : Z) :
  process_tier agents k tier (cd, n) = Ok (cd', n') ->
  exists an,
    getitem tier "agent" = Ok an
    /\ ((find_agent an agents = Ok None /\ cd' = cd /\ n' = n)
        \/ exists a status state m',
             find_agent an agents = Ok (Some a)
             /\ getitem a "status" = Ok status
             /\ getitem a "state" = Ok state
             /\ handle_time a (count_agent k status state (entry cd k)) n
                = Ok (m', n')
             /\ cd' = <[k := m']> cd).
Proof.
  unfold process_tier. intros H. bind_inv H. exists a. split; [reflexivity |].
  bind_inv H. destruct a0 as [agent |].
  - bind_inv H. bind_inv H. bind_inv H. cbn [fst snd] in *.
    destruct a2 as [m' n1]. injection H as <- <-.
    right. exists agent, a0, a1, m'. repeat split; assumption.
  - injection H as <- <-. left. repeat split.
Qed.

Lemma process_queue_inv (agents tiers : list RawRecord) (queue : RawRecord)
    (st st' : engine) :
  process_queue agents tiers queue st = Ok st' ->
  exists k,
    getitem queue "name" = Ok k
    /\ ((any_tier k tiers = Ok false /\ st' = st)
        \/ exists answered abandoned h a ts cd1 n1 m,
             any_tier k tiers = Ok true
             /\ getitem queue "calls_answered" = Ok answered
             /\ int_of_cell answered = Ok h
             /\ getitem queue "calls_abandoned" = Ok abandoned
             /\ int_of_cell abandoned = Ok a
             /\ queue_tiers k tiers = Ok ts
             /\ foldM (process_tier agents k) ts
                  (<[k := seed h a (entry (combined_data st) k)]>
                     (combined_data st), aht_agent_count st)
                = Ok (cd1, n1)
             /\ average (entry cd1 k) n1 = Ok m
             /\ st' = Engine (<[k := m]> cd1) (combined_data_list st ++ [k]) 0).
Proof.
  unfold process_queue. intros H. bind_inv H. exists a. split; [reflexivity |].
  bind_inv H. destruct a0.
  - do 7 bind_inv H. injection H as <-. destruct a5 as [cd1 n1].
    right. exists a0, a2, a1, a3, a4, cd1, n1, a6. repeat split; assumption.
  - injection H as <-. left. split; reflexivity.
Qed.

Lemma any_tier_true (k : option string) (tiers : list RawRecord) :
  any_tier k tiers = Ok true ->
  exists t, t ∈ tiers /\ getitem t "queue" = Ok k.
Proof.
  induction tiers as [| tier rest IH]; cbn; [discriminate |].
  intros H. bind_inv H. destruct (bool_decide_reflect (a = k)) as [-> | Hne].
  - exists tier. split; [left | exact E].
  - destruct (IH H) as [t [Ht Hq]]. exists t. split; [now right | exact Hq].
Qed.

Lemma handle_time_no_pair (agent : RawRecord) (m m' : QueueMetrics)
    (n n' : Z) :
  (forall p, bridge_pair agent <> Ok p) ->
  handle_time agent m n = Ok (m', n') -> m' = m /\ n' = n.
Proof.
  unfold handle_time. intros Hp.
  destruct (bridge_pair agent) as [p | ex]; [now destruct (Hp p) |].
  destruct (caught ex); [| discriminate]. intros [= <- <-]. split; reflexivity.
Qed.

Lemma AHT_seed (h a : Z) (m : QueueMetrics) : AHT (seed h a m) = AHT m.
Proof. reflexivity. Qed.

Lemma AHT_count_agent (k status state : option string) (m : QueueMetrics) :
  AHT (count_agent k status state m) = AHT m.
Proof. reflexivity. Qed.

(** The tiers of other queues leave the entry of a queue as it is. *)
Lemma tiers_fold_other (agents : list RawRecord) (k k' : option string)
    (ts : list RawRecord) (cd cd' : gmap (option string) QueueMetrics)
    (n n' : Z) :
  k <> k' ->
  foldM (process_tier agents k) ts (cd, n) = Ok (cd', n') ->
  cd' !! k' = cd !! k'.
Proof.
  intros Hne H.
  refine (foldM_invariant (process_tier agents k)
            (fun s => fst s !! k' = cd !! k') ts (cd, n) (cd', n') eq_refl _ H).
  intros tier [cd1 n1] [cd2 n2] _ H1 H2. cbn [fst] in *.
  apply process_tier_inv in H2
    as (an & _ & [(_ & -> & _) | (a & s1 & s2 & m' & _ & _ & _ & _ & ->)]);
    [exact H1 |].
  now rewrite lookup_insert_ne.
Qed.

(** Tiers whose agents bring no numeric bridge pair leave the sum and the
    counter of the average as they are. *)
Lemma tiers_fold_no_pair (agents : list RawRecord) (k : option string)
    (ts : list RawRecord) (cd cd' : gmap (option string) QueueMetrics)
    (n n' : Z) :
  (forall tier an a, tier ∈ ts -> getitem tier "agent" = Ok an ->
     find_agent an agents = Ok (Some a) -> forall p, bridge_pair a <> Ok p) ->
  foldM (process_tier agents k) ts (cd, n) = Ok (cd', n') ->
  n' = n /\ AHT (entry cd' k) = AHT (entry cd k).
Proof.
  intros Hp H.
  refine (foldM_invariant (process_tier agents k)
            (fun s => snd s = n /\ AHT (entry (fst s) k) = AHT (entry cd k))
            ts (cd, n) (cd', n') (conj eq_refl eq_refl) _ H).
  intros tier [cd1 n1] [cd2 n2] Ht [H1 H1'] H2. cbn [fst snd] in *.
  apply process_tier_inv in H2
    as (an & Han & [(_ & -> & ->) | (a & s1 & s2 & m' & Hf & _ & _ & Hh & ->)]);
    [split; assumption |].
  apply handle_time_no_pair in Hh as [-> ->]; [| eapply Hp; eassumption].
  rewrite entry_insert, AHT_count_agent. split; assumption.
Qed.

Lemma average_zero (m : QueueMetrics) : average m 0 = Ok m.
Proof. reflexivity. Qed.

Lemma aggregate_aht_zero (agents tiers queues : list RawRecord)
    (k : option string) (st : engine) :
  (forall tier an a, tier ∈ tiers -> getitem tier "queue" = Ok k ->
     getitem tier "agent" = Ok an -> find_agent an agents = Ok (Some a) ->
     forall p, bridge_pair a <> Ok p) ->
  aggregate agents tiers queues = Ok st ->
  AHT (entry (combined_data st) k) = PyInt 0.
Proof.
  intros Hp H. unfold aggregate in H.
  refine (proj2 (foldM_invariant (process_queue agents tiers)
                   (fun s => aht_agent_count s = 0
                             /\ AHT (entry (combined_data s) k) = PyInt 0)
                   queues (Engine ∅ [] 0) st
                   (conj eq_refl (f_equal AHT (entry_empty k))) _ H)).
  intros queue s1 s2 _ [Hn Ha] Hq.
  apply process_queue_inv in Hq
    as (kq & _ & [(_ & ->) | (ans & ab & h & a & ts & cd1 & n1 & m & _ & _ & _
                              & _ & _ & Hts & Hfold & Hav & ->)]);
    [split; assumption |].
  cbn [aht_agent_count combined_data]. split; [reflexivity |].
  destruct (decide (kq = k)) as [-> | Hne].
  - rewrite entry_insert. rewrite Hn in Hfold.
    apply tiers_fold_no_pair in Hfold as [-> Hfold].
    + rewrite average_zero in Hav. injection Hav as <-.
      now rewrite Hfold, entry_insert, AHT_seed.
    + intros tier an ag Ht. apply (queue_tiers_spec _ _ _ Hts) in Ht as [Ht Hq].
      now apply Hp.
  - rewrite entry_insert_ne by exact Hne.
    apply (tiers_fold_other _ _ k) in Hfold; [| exact Hne].
    unfold entry. rewrite Hfold, lookup_insert_ne by exact Hne. exact Ha.
Qed.

Definition sales_agents : list RawRecord :=
  [row [("name", "alice"); ("status", "Available"); ("state", "Idle")];
   row [("name", "bob"); ("status", "On Break"); ("state", "Waiting")]].
Definition sales_tiers : list RawRecord :=
  [row [("queue", "Sales"); ("agent", "alice")];
   row [("queue", "Sales"); ("agent", "bob")]].
Definition sales_queues : list RawRecord :=
  [row [("name", "Sales"); ("calls_answered", "0"); ("calls_abandoned", "0")]].

(** C3, as the code has it: when the cycle gets through the aggregation,
    the published entry of a queue none of whose resolved agents yields an
    integer [last_bridge_start] and [last_bridge_end] has for [AHT] the
    integer [0] of the factory, not a formatted duration; and the queue
    Sales with alice (Available, Idle) and bob (On Break), without bridge
    timestamps, has [Online = 2], [Idle = 1], [OnBreak = 1],
    [Available = 1] and [AHT = 0]. *)
Theorem aht_stays_zero (agents tiers queues : list RawRecord)
    (st : engine) (k : option string) (i : nat) :
  aggregate agents tiers queues = Ok st ->
  combined_data_list st !! i = Some k ->
  (forall tier an a, tier ∈ tiers -> getitem tier "queue" = Ok k ->
     getitem tier "agent" = Ok an -> find_agent an agents = Ok (Some a) ->
     forall p, bridge_pair a <> Ok p) ->
  (exists published m,
     queue_metrics agents tiers queues = Ok published
     /\ published !! i = Some m /\ AHT m = PyInt 0)
  /\ queue_metrics sales_agents sales_tiers sales_queues
     = Ok [Metrics (PyStr "Sales") 2 0 1 0 0 1 1 0 0 0 0 (PyInt 0) (PyInt 0)].
Proof.
  intros Hagg Hi Hp. split; [| vm_compute; reflexivity].
  unfold queue_metrics. rewrite Hagg. cbn [bindR].
  eexists _, _. split; [reflexivity |]. split.
  - rewrite list_lookup_fmap, Hi. reflexivity.
  - eapply aggregate_aht_zero; eassumption.
Qed.

Lemma find_agent_elem (an : option string) (agents : list RawRecord)
    (a : RawRecord) :
  find_agent an agents = Ok (Some a) -> a ∈ agents.
Proof.
  induction agents as [| agent rest IH]; cbn; [discriminate |].
  intros H. bind_inv H. destruct (bool_decide (a0 = an)).
  - injection H as <-. left.
  - right. now apply IH.
Qed.

Definition sales_engine : engine :=
  Engine (<[Some "Sales" :=
              Metrics (PyStr "Sales") 2 0 1 0 0 1 1 0 0 0 0 (PyInt 0) (PyInt 0)]> ∅)
         [Some "Sales"] 0.

Lemma aht_stays_zero_witness :
  exists published m,
    queue_metrics sales_agents sales_tiers sales_queues = Ok published
    /\ published !! 0%nat = Some m /\ AHT m = PyInt 0.
Proof.
  refine (proj1 (aht_stays_zero sales_agents sales_tiers sales_queues
                   sales_engine (Some "Sales") 0 _ eq_refl _)).
  - vm_compute. reflexivity.
  - intros tier an a _ _ _ Ha p. apply find_agent_elem in Ha.
    repeat (apply elem_of_cons in Ha as [-> | Ha]; [discriminate |]).
    inversion Ha.
Defined.

(** C3 as stated fails: in the scenario of the claim no agent has bridge
    timestamps, and the [AHT] that is published is not the string
    [00:00:00]. *)
Lemma aht_not_formatted :
  exists m,
    queue_metrics sales_agents sales_tiers sales_queues = Ok [m]
    /\ Forall (fun a => bridge_pair a = Raise (key_error "last_bridge_start"))
              sales_agents
    /\ AHT m <> PyStr "00:00:00".
Proof.
  eexists. split; [vm_compute; reflexivity |].
  split; [repeat constructor | discriminate].
Qed.

(** ** Queues whose tiers resolve to no agent *)

Lemma tiers_fold_unresolved (agents : list RawRecord) (k : option string)
    (ts : list RawRecord) (cd cd' : gmap (option string) QueueMetrics)
    (n n' : Z) :
  (forall tier an a, tier ∈ ts -> getitem tier "agent" = Ok an ->
     find_agent an agents <> Ok (Some a)) ->
  foldM (process_tier agents k) ts (cd, n) = Ok (cd', n') ->
  cd' = cd /\ n' = n.
Proof.
  intros Hp H.
  refine (foldM_invariant (process_tier agents k)
            (fun s => fst s = cd /\ snd s = n)
            ts (cd, n) (cd', n') (conj eq_refl eq_refl) _ H).
  intros tier [cd1 n1] [cd2 n2] Ht [H1 H1'] H2. cbn [fst snd] in *.
  apply process_tier_inv in H2
    as (an & Han & [(_ & -> & ->) | (a & s1 & s2 & m' & Hf & _)]);
    [split; assumption |].
  now destruct (Hp tier an a Ht Han).
Qed.

Lemma average_fields (m m' : QueueMetrics) (n : Z) :
  average m n = Ok m' ->
  Name m' = Name m /\ Handled m' = Handled m /\ Abandoned m' = Abandoned m
  /\ SL60 m' = SL60 m.
Proof.
  unfold average. destruct (n >? 0); [| intros [= <-]; repeat split].
  destruct (AHT m); try discriminate. intros [= <-]. repeat split.
Qed.

Lemma any_tier_complete (k : option string) (tiers : list RawRecord)
    (b : bool) :
  any_tier k tiers = Ok b ->
  (exists t, t ∈ tiers /\ getitem t "queue" = Ok k) -> b = true.
Proof.
  induction tiers as [| tier rest IH]; cbn; intros H [t [Ht Hq]].
  - inversion Ht.
  - bind_inv H. destruct (bool_decide_reflect (a = k)) as [-> | Hne].
    + now injection H as <-.
    + apply IH; [exact H |]. exists t. split; [| exact Hq].
      apply elem_of_cons in Ht as [-> | Ht]; [| exact Ht]. congruence.
Qed.

(** A queue of another name leaves the entry of a queue as it is, and the
    list only grows. *)
Lemma process_queue_other (agents tiers : list RawRecord) (queue : RawRecord)
    (st st' : engine) (k : option string) :
  getitem queue "name" <> Ok k ->
  process_queue agents tiers queue st = Ok st' ->
  combined_data st' !! k = combined_data st !! k
  /\ (k ∈ combined_data_list st -> k ∈ combined_data_list st').
Proof.
  intros Hne Hq.
  apply process_queue_inv in Hq
    as (kq & Hk & [(_ & ->) | (ans & ab & h & a & ts & cd1 & n1 & m & _ & _ & _
                               & _ & _ & Hts & Hfold & Hav & ->)]);
    [split; auto |].
  assert (Hkq : kq <> k) by congruence.
  cbn [combined_data combined_data_list]. split.
  - rewrite lookup_insert_ne by exact Hkq.
    apply (tiers_fold_other _ _ k) in Hfold; [| exact Hkq].
    now rewrite Hfold, lookup_insert_ne.
  - intros H. apply elem_of_app. now left.
Qed.

(** C10: when the cycle gets through the aggregation, a queue that has a
    tier row but no tier row whose agent is in the agent table has an
    entry in the published list; its [Name] is the empty string of the
    factory, and its [Handled], [Abandoned] and [SL60] come from the queue
    record (the last one of that name in the queue table). *)
Theorem unresolved_queue_entry (agents tiers pre post : list RawRecord)
    (queue : RawRecord) (k : option string) (st : engine) :
  aggregate agents tiers (pre ++ queue :: post) = Ok st ->
  getitem queue "name" = Ok k ->
  (exists tier, tier ∈ tiers /\ getitem tier "queue" = Ok k) ->
  (forall tier an a, tier ∈ tiers -> getitem tier "queue" = Ok k ->
     getitem tier "agent" = Ok an -> find_agent an agents <> Ok (Some a)) ->
  (forall q, q ∈ post -> getitem q "name" <> Ok k) ->
  exists published m answered abandoned h a,
    queue_metrics agents tiers (pre ++ queue :: post) = Ok published
    /\ m ∈ published
    /\ Name m = PyStr EmptyString
    /\ getitem queue "calls_answered" = Ok answered
    /\ int_of_cell answered = Ok h
    /\ getitem queue "calls_abandoned" = Ok abandoned
    /\ int_of_cell abandoned = Ok a
    /\ Handled m = h /\ Abandoned m = a /\ SL60 m = service_level h a.
Proof.
  intros Hagg Hk Htier Hun Hpost.
  unfold queue_metrics. rewrite Hagg. cbn [bindR].
  unfold aggregate in Hagg. rewrite foldM_app in Hagg. bind_inv Hagg.
  rename a into st1. cbn [foldM] in Hagg. bind_inv Hagg. rename a into st2.
  assert (Hname : Name (entry (combined_data st1) k) = PyStr EmptyString).
  { refine (foldM_invariant (process_queue agents tiers)
              (fun s => Name (entry (combined_data s) k) = PyStr EmptyString)
              pre (Engine ∅ [] 0) st1 (f_equal Name (entry_empty k)) _ E).
    intros q s1 s2 _ Hs Hq.
    destruct (decide (getitem q "name" = Ok k)) as [Hqk | Hqk].
    - apply process_queue_inv in Hq
        as (kq & Hkq & [(_ & ->) | (ans & ab & h & a & ts & cd1 & n1 & m & _ & _
                                    & _ & _ & _ & Hts & Hfold & Hav & ->)]);
        [exact Hs |].
      assert (kq = k) as -> by congruence.
      cbn [combined_data]. rewrite entry_insert.
      apply tiers_fold_unresolved in Hfold as [-> ->].
      + apply average_fields in Hav as [-> _]. now rewrite entry_insert.
      + intros tier an ag Ht.
        apply (queue_tiers_spec _ _ _ Hts) in Ht as [Ht Hq]. now apply Hun.
    - apply (process_queue_other _ _ _ _ _ k Hqk) in Hq as [Hq _].
      unfold entry in *. now rewrite Hq. }
  apply process_queue_inv in E0
    as (kq & Hkq & [(Hany & _) | (ans & ab & h & a & ts & cd1 & n1 & m & _ & Hans
                                  & Hh & Hab & Ha & Hts & Hfold & Hav & ->)]).
  { assert (kq = k) as -> by congruence.
    now apply any_tier_complete in Hany. }
  assert (kq = k) as -> by congruence.
  apply tiers_fold_unresolved in Hfold as [-> ->].
  2: { intros tier an ag Ht.
       apply (queue_tiers_spec _ _ _ Hts) in Ht as [Ht Hq]. now apply Hun. }
  rewrite entry_insert in Hav.
  apply average_fields in Hav as (Hm1 & Hm2 & Hm3 & Hm4).
  cbn [seed Name Handled Abandoned SL60] in Hm1, Hm2, Hm3, Hm4.
  apply (foldM_invariant _
           (fun s => k ∈ combined_data_list s /\ entry (combined_data s) k = m))
    in Hagg.
  - destruct Hagg as [Hin Hm].
    exists (map (entry (combined_data st)) (combined_data_list st)), m,
      ans, ab, h, a.
    split; [reflexivity |]. split.
    + rewrite <- Hm. apply list_elem_of_fmap. now exists k.
    + repeat split; try assumption. congruence.
  - cbn [combined_data combined_data_list]. split.
    + apply elem_of_app. right. left.
    + apply entry_insert.
  - intros q s1 s2 Hq [Hin Hm] Hstep.
    apply (process_queue_other _ _ _ _ _ k (Hpost q Hq)) in Hstep as [H1 H2].
    split; [auto |]. unfold entry in *. now rewrite H1.
Qed.

Definition ghost_tiers : list RawRecord :=
  [row [("queue", "Ghost"); ("agent", "carol")]].
Definition ghost_queue : RawRecord :=
  row [("name", "Ghost"); ("calls_answered", "3"); ("calls_abandoned", "1")].
Definition ghost_engine : engine :=
  Engine (<[Some "Ghost" :=
              Metrics (PyStr "") 0 0 0 0 0 0 0 0 0 3 1 (PyInt 0) (PyRound2 300 4)]> ∅)
         [Some "Ghost"] 0.

Lemma unresolved_queue_entry_witness :
  exists published m,
    queue_metrics sales_agents ghost_tiers [ghost_queue] = Ok published
    /\ m ∈ published
    /\ Name m = PyStr EmptyString
    /\ Handled m = 3 /\ Abandoned m = 1 /\ SL60 m = PyRound2 300 4.
Proof.
  destruct (unresolved_queue_entry sales_agents ghost_tiers [] [] ghost_queue
              (Some "Ghost") ghost_engine)
    as (published & m & ans & ab & h & a & Hq & Hin & Hn & Hans & Hh & Hab
        & Ha & H1 & H2 & H3).
  - vm_compute. reflexivity.
  - reflexivity.
  - exists (row [("queue", "Ghost"); ("agent", "carol")]).
    split; [left | reflexivity].
  - intros tier an a Ht _ Han. apply list_elem_of_singleton in Ht. subst tier.
    vm_compute in Han. injection Han as <-. vm_compute. discriminate.
  - intros q Hq. inversion Hq.
  - vm_compute in Hans. injection Hans as <-.
    vm_compute in Hab. injection Hab as <-.
    vm_compute in Hh. injection Hh as <-.
    vm_compute in Ha. injection Ha as <-.
    exists published, m. repeat split; assumption.
Defined.

(** ** The connection is opened once *)

(** Whatever [connect] does, it leaves a connection object behind, so a
    second [connect] finds [self.connection] set and returns at once, with
    no new socket and no handshake: a failed attempt is never retried. *)
Theorem connect_once (self : FreeSWITCHClient) :
  connection (snd (connect self)) <> None
  /\ connect (snd (connect self)) = (Ok tt, snd (connect self)).
Proof.
  assert (H : connection (snd (connect self)) <> None).
  { unfold connect. destruct (connection self) as [s |] eqn:E.
    - cbn. now rewrite E.
    - destruct (host_port self) as [| greeting answers closes]; [easy |].
      destruct (handshake _ _). easy. }
  split; [exact H |].
  unfold connect at 1. destruct (connection (snd (connect self))); easy.
Qed.

(** After a refused TCP connection the client keeps the unconnected
    socket: the first command fails with the refusal, every later one with
    a broken pipe on [send], and the endpoint is never dialled again. *)
Theorem refused_then_broken_pipe (pw first : string) (later : list string) :
  let self := Client Refused pw None in
  fst (execute first self)
    = Raises (Exn ConnectionRefusedError "[Errno 111] Connection refused")
  /\ Forall (fun command =>
               execute command (snd (execute first self))
               = (Raises broken_pipe, snd (execute first self)))
            later.
Proof.
  cbn zeta. split; [reflexivity |].
  apply Forall_forall. intros command _. reflexivity.
Qed.

(** ** The poll cycle and the store *)

(** A cycle writes the store at most twice, the queue snapshot first: it
    ends with both snapshots written, or, on an error, with the store
    untouched or with the queue snapshot alone written; the agent snapshot
    is never written without the queue snapshot, and no other key is ever
    touched.  A cycle that never ends has written nothing. *)
Theorem cycle_store (time : nat -> Q) (client : FreeSWITCHClient)
    (commands : list string) (redis_client : gmap string snapshot) :
  let r := execute_and_process_commands time client commands redis_client in
  (forall key, key <> queue_key -> key <> agent_key ->
     snd r !! key = redis_client !! key)
  /\ match fst (fst r) with
     | Published =>
         exists qs ags,
           snd r = <[agent_key := AgentSnapshot ags]>
                     (<[queue_key := QueueSnapshot qs]> redis_client)
     | Reported _ =>
         snd r = redis_client
         \/ exists qs, snd r = <[queue_key := QueueSnapshot qs]> redis_client
     | NeverEnds => snd r = redis_client
     end.
Proof.
  cbn zeta. unfold execute_and_process_commands.
  destruct (execute_multiple_commands commands client) as [[responses | e |] c];
    [| cbn; auto ..].
  destruct (tables responses) as [[[agents tiers] queues] | e]; [| cbn; auto].
  destruct (queue_metrics agents tiers queues) as [qs | e]; [| cbn; auto].
  destruct (agent_metrics_list time (time 0%nat) tiers agents 1) as [ags | e];
    cbn [fst snd].
  - split; [| eauto].
    intros key H1 H2. now rewrite !lookup_insert_ne by congruence.
  - split; [| eauto].
    intros key H1 H2. now rewrite lookup_insert_ne by congruence.
Qed.

Definition nl : string := String LF EmptyString.

(** The three tables of a cycle in which the agent alice has a
    [last_bridge_start] that is no number. *)
Definition agent_list_reply : string :=
  frame_of ("name|type|status|state|last_bridge_start" +:+ nl
            +:+ "alice|callback|Available|Waiting|n/a" +:+ nl
            +:+ "+OK" +:+ nl).
Definition tier_list_reply : string :=
  frame_of ("queue|agent|level|position" +:+ nl
            +:+ "Sales|alice|1|1" +:+ nl +:+ "+OK" +:+ nl).
Definition queue_list_reply : string :=
  frame_of ("name|calls_answered|calls_abandoned" +:+ nl
            +:+ "Sales|3|1" +:+ nl +:+ "+OK" +:+ nl).
Definition switch : FreeSWITCHClient :=
  Client (Listening [auth_request]
            [[reply_ok]; [agent_list_reply]; [tier_list_reply];
             [queue_list_reply]] false)
         "ClueCon" None.
Definition list_commands : list string :=
  ["callcenter_config agent list"; "callcenter_config tier list";
   "callcenter_config queue list"].

(** A cycle that ends with the queue snapshot alone does occur: the queue
    part skips a [last_bridge_start] that is no number, the agent part
    does not, and the error comes after the queue snapshot has been
    written. *)
Lemma cycle_partial_publish :
  let r := execute_and_process_commands (fun _ => 0%Q) switch list_commands ∅ in
  fst (fst r) = Reported invalid_literal
  /\ snd r !! queue_key
     = Some (QueueSnapshot
               [Metrics (PyStr "Sales") 1 0 0 0 0 1 0 1 0 3 1 (PyInt 0)
                        (PyRound2 300 4)])
  /\ snd r !! agent_key = None.
Proof. vm_compute. repeat split. Qed.



(** ** What the frame reader returns *)

Lemma search_content_length_prefix_none (s r : string) :
  search_content_length (s +:+ r) = None -> search_content_length s = None.
Proof.
  intros H. destruct (search_content_length s) as [ds |] eqn:E; [| reflexivity].
  destruct (search_content_length_app _ r _ E) as [d Hd]. congruence.
Qed.

(** Without a [Content-Length] header in what the peer sends, the reader
    never returns: a frame that has none, such as the reply to [auth], can
    only end the loop by the timeout of [recv] (or not at all, when the
    peer has closed). *)
Theorem no_content_length_never_returns (chunks : list string) (at_eof : bool) :
  search_content_length (received chunks) = None ->
  fst (recv_loop chunks at_eof EmptyString None)
    = if at_eof then Hangs else Raises timed_out.
Proof.
  change (received chunks) with (EmptyString +:+ received chunks).
  generalize EmptyString.
  induction chunks as [| part rest IH]; intros response H; [reflexivity |].
  cbn [recv_loop]. cbn [received foldr] in H.
  rewrite <- app_assoc_string in H.
  rewrite (search_content_length_prefix_none _ _ H). now apply IH.
Qed.

Lemma no_content_length_never_returns_witness :
  fst (recv_loop [reply_ok] false EmptyString None) = Raises timed_out.
Proof.
  apply (no_content_length_never_returns [reply_ok] false). reflexivity.
Defined.

Lemma length_zero_string (s : string) : String.length s = 0%nat -> s = EmptyString.
Proof. destruct s; [reflexivity | discriminate]. Qed.

Lemma digits_value_nonneg (s : string) :
  all_digits s = true -> 0 <= digits_value 0 s.
Proof. intros H. now apply (digits_value_ge 0 s). Qed.

Lemma recv_loop_returns (chunks : list string) (at_eof : bool)
    (response : string) (content_length : option Z)
    (frame : string) (rest : list string) :
  (forall n, content_length = Some n -> 0 <= n) ->
  recv_loop chunks at_eof response content_length = (Returns frame, rest) ->
  frame +:+ received rest = response +:+ received chunks
  /\ exists body,
       item1 (split1 blank_line frame) = Ok body /\ body <> EmptyString.
Proof.
  revert response content_length.
  induction chunks as [| part tl IH]; intros response cl Hcl H;
    cbn [recv_loop] in H.
  - destruct at_eof; discriminate.
  - cbn [received foldr]. rewrite <- app_assoc_string.
    set (cl' := match cl with
                | Some n => Some n
                | None =>
                    match search_content_length (response +:+ part) with
                    | Some ds => Some (digits_value 0 ds)
                    | None => None
                    end
                end) in H.
    assert (Hcl' : forall n, cl' = Some n -> 0 <= n).
    { subst cl'. destruct cl as [n0 |]; [exact Hcl |].
      destruct (search_content_length _) as [ds |] eqn:E; [| discriminate].
      intros n [= <-]. apply digits_value_nonneg.
      eapply search_content_length_all_digits, E. }
    destruct cl' as [n |] eqn:En; [| exact (IH _ _ Hcl' H)].
    destruct (Z.eqb_spec n 0) as [-> | Hn]; [exact (IH _ _ Hcl' H) |].
    destruct (item1 (split1 blank_line (response +:+ part))) as [body | e] eqn:Eb;
      [| discriminate].
    destruct (Z.leb_spec n (Z.of_nat (String.length body))) as [Hle | Hgt];
      [| exact (IH _ _ Hcl' H)].
    injection H as <- <-. split; [reflexivity |].
    exists body. split; [exact Eb |].
    intros ->. specialize (Hcl' n eq_refl). cbn in Hle. lia.
Qed.

(** When the reader returns, it returns exactly the chunks it has read,
    joined, nothing added and nothing dropped (what follows stays in the
    inbox), and the text has a blank line with a non-empty body after
    it: a frame of headers alone is never returned. *)
Theorem recv_response_returns (s : socket) (frame : string) (s' : socket) :
  _recv_response s = (Returns frame, s') ->
  frame +:+ received (inbox s') = received (inbox s)
  /\ exists body,
       item1 (split1 blank_line frame) = Ok body /\ body <> EmptyString.
Proof.
  unfold _recv_response. destruct (connected s); [| discriminate].
  destruct (recv_loop _ _ _ _) as [r rest] eqn:E. intros [= -> <-].
  cbn [inbox with_inbox].
  apply recv_loop_returns in E; [exact E | discriminate].
Qed.

(** The frame of the body [+OK one], cut inside its body. *)
Definition frame_start : string :=
  "Content-Type: api/response" +:+ String LF "Content-Length: 7"
    +:+ blank_line +:+ "+OK".

Lemma recv_response_returns_witness :
  frame_of "+OK one" +:+ received ["+OK two"]
  = received [frame_start; " one"; "+OK two"].
Proof.
  exact (proj1 (recv_response_returns
                  (Socket true [frame_start; " one"; "+OK two"] [] false [])
                  (frame_of "+OK one")
                  (Socket true ["+OK two"] [] false []) eq_refl)).
Defined.

Lemma startswith_spec (p s : string) :
  startswith p s = true -> s = p +:+ drop_chars (String.length p) s.
Proof.
  revert s. induction p as [| a p IH]; intros [| b s]; cbn; try easy.
  intros H. apply andb_prop in H as [Hab H]. apply Ascii.eqb_eq in Hab as ->.
  rewrite app_String. f_equal. now apply IH.
Qed.

Lemma cut_length (sep s a b : string) :
  cut sep s = Some (a, b) -> (String.length sep <= String.length s)%nat.
Proof.
  revert a b. induction s as [| c t IH]; intros a b; cbn [cut].
  - destruct (startswith sep EmptyString) eqn:E; [| discriminate].
    intros _. now apply startswith_length.
  - destruct (startswith sep (String c t)) eqn:E.
    + intros _. now apply startswith_length.
    + destruct (cut sep t) as [[a' b'] |]; [| discriminate].
      intros _. specialize (IH a' b' eq_refl). cbn. lia.
Qed.

Lemma cut_spec (sep s a b : string) :
  cut sep s = Some (a, b) -> s = a +:+ sep +:+ b.
Proof.
  revert a b. induction s as [| c t IH]; intros a b; cbn [cut].
  - destruct (startswith sep EmptyString) eqn:E; [| discriminate].
    intros [= <- <-]. rewrite app_Empty. now apply startswith_spec.
  - destruct (startswith sep (String c t)) eqn:E.
    + intros [= <- <-]. rewrite app_Empty. now apply startswith_spec.
    + destruct (cut sep t) as [[a' b'] |]; [| discriminate].
      intros [= <- <-]. rewrite app_String. f_equal. now apply IH.
Qed.

(** The leftmost separator stays the leftmost one when more text
    arrives. *)
Lemma cut_app (sep s x a b : string) :
  cut sep s = Some (a, b) -> cut sep (s +:+ x) = Some (a, b +:+ x).
Proof.
  revert a b. induction s as [| c t IH]; intros a b; cbn [cut].
  - destruct (startswith sep EmptyString) eqn:E; [| discriminate].
    intros [= <- <-]. destruct sep; [| discriminate].
    rewrite app_Empty. destruct x; reflexivity.
  - destruct (startswith sep (String c t)) eqn:E.
    + intros [= <- <-]. rewrite app_String. cbn [cut].
      rewrite <- app_String, (startswith_app_l _ _ x E).
      now rewrite drop_chars_app by now apply startswith_length.
    + destruct (cut sep t) as [[a' b'] |] eqn:Ec; [| discriminate].
      intros [= <- <-]. rewrite app_String. cbn [cut].
      rewrite <- app_String.
      destruct (startswith sep (String c t +:+ x)) eqn:E'.
      * apply startswith_app_inv in E'; [congruence |].
        apply cut_length in Ec. cbn. lia.
      * now rewrite (IH _ _ eq_refl).
Qed.

Lemma take_digits_nondigit (y : string) (c : ascii) (x : string) :
  is_digit c = false -> take_digits (y +:+ String c x) = take_digits y.
Proof.
  intros Hc. induction y as [| a y IH]; rewrite ?app_Empty, ?app_String; cbn.
  - now rewrite Hc.
  - destruct (is_digit a); [now rewrite IH | reflexivity].
Qed.

Lemma match_here_closed (s : string) (c : ascii) (x ds : string) :
  is_digit c = false ->
  match_here (s +:+ String c EmptyString) = Some ds ->
  match_here (s +:+ String c x) = Some ds.
Proof.
  intros Hc. unfold match_here.
  destruct (startswith content_length_pattern (s +:+ String c EmptyString))
    eqn:E; [| discriminate].
  destruct (le_lt_dec 16 (String.length s)) as [L | L].
  - apply startswith_app_inv in E; [| exact L].
    rewrite (startswith_app_l _ _ _ E), !drop_chars_app by exact L.
    now rewrite !take_digits_nondigit.
  - pose proof (startswith_length _ _ E) as L'.
    rewrite length_app_string in L'. cbn [String.length] in L'.
    pose proof (length_drop_chars 16 (s +:+ String c EmptyString)) as Ld.
    rewrite length_app_string in Ld. cbn [String.length] in Ld.
    destruct (drop_chars 16 (s +:+ String c EmptyString));
      [discriminate | cbn [String.length] in Ld; lia].
Qed.

(** A [Content-Length] header whose line has ended is read the same
    whatever follows. *)
Lemma search_content_length_closed (s : string) (c : ascii) (x ds : string) :
  is_digit c = false ->
  search_content_length (s +:+ String c EmptyString) = Some ds ->
  search_content_length (s +:+ String c x) = Some ds.
Proof.
  intros Hc. induction s as [| a s IH].
  - intros H. rewrite app_Empty in H.
    apply search_content_length_length in H. cbn in H. lia.
  - rewrite !app_String. cbn [search_content_length]. rewrite <- !app_String.
    destruct (match_here (String a s +:+ String c EmptyString)) eqn:E.
    + intros [= <-]. now rewrite (match_here_closed _ _ x _ Hc E).
    + intros H.
      assert (E' : match_here (String a s +:+ String c x) = None).
      { replace (String a s +:+ String c x)
          with ((String a s +:+ String c EmptyString) +:+ x)
          by (rewrite app_assoc_string; reflexivity).
        apply match_here_none_app; [| exact E].
        apply search_content_length_length in H.
        rewrite app_String. cbn. lia. }
      rewrite E'. now apply IH.
Qed.

Lemma recv_loop_body (first header b1 : string) (n : Z) (at_eof : bool)
    (chunks : list string) (acc : string) :
  cut blank_line first = Some (header, b1) ->
  Z.of_nat (String.length (b1 +:+ acc +:+ received chunks)) = n ->
  Z.of_nat (String.length (b1 +:+ acc)) < n ->
  fst (recv_loop chunks at_eof (first +:+ acc) (Some n))
  = Returns (first +:+ acc +:+ received chunks).
Proof.
  intros Hcut. revert acc.
  induction chunks as [| part rest IH]; intros acc Hlen Hlt.
  - cbn [received foldr] in Hlen. rewrite app_nil_r_string in Hlen.
    exfalso. lia.
  - cbn [recv_loop received foldr].
    destruct (Z.eqb_spec n 0) as [-> | Hn]; [exfalso; lia |].
    rewrite app_assoc_string.
    unfold split1. rewrite (cut_app _ _ (acc +:+ part) _ _ Hcut).
    cbn [item1 lookup list_lookup].
    cbn [received foldr] in Hlen. rewrite <- (app_assoc_string acc) in Hlen.
    destruct (Z.leb_spec n (Z.of_nat (String.length (b1 +:+ acc +:+ part))))
      as [Hle | Hgt].
    + cbn [fst]. rewrite <- (app_assoc_string b1) in Hlen.
      rewrite length_app_string in Hlen.
      assert (Hr : received rest = EmptyString)
        by (apply length_zero_string; unfold received; lia).
      unfold received in Hr |- *. rewrite Hr.
      now rewrite app_nil_r_string.
    + rewrite (IH (acc +:+ part)); [| exact Hlen | exact Hgt].
      now rewrite app_assoc_string.
Qed.

(** A frame with a body is returned whole: when the first chunk holds the
    header section up to the blank line, the header section has a
    [Content-Length] line of value [n > 0], and the chunks carry [n]
    characters after the blank line, however cut, the reader returns
    the header section, the blank line and these [n] characters. *)
Theorem recv_loop_whole_frame (first header b1 ds : string)
    (chunks : list string) (at_eof : bool) :
  cut blank_line first = Some (header, b1) ->
  search_content_length (header +:+ String LF EmptyString) = Some ds ->
  0 < digits_value 0 ds ->
  Z.of_nat (String.length (b1 +:+ received chunks)) = digits_value 0 ds ->
  fst (recv_loop (first :: chunks) at_eof EmptyString None)
  = Returns (header +:+ blank_line +:+ b1 +:+ received chunks).
Proof.
  intros Hcut Hs Hpos Hlen.
  pose proof (cut_spec _ _ _ _ Hcut) as Hfirst.
  assert (Hsearch : search_content_length first = Some ds).
  { rewrite Hfirst. unfold blank_line. rewrite app_String.
    apply search_content_length_closed; [reflexivity | exact Hs]. }
  cbn [recv_loop]. rewrite app_Empty, Hsearch.
  destruct (Z.eqb_spec (digits_value 0 ds) 0) as [E | _]; [exfalso; lia |].
  unfold split1. rewrite Hcut. cbn [item1 lookup list_lookup].
  replace (header +:+ blank_line +:+ b1 +:+ received chunks)
    with (first +:+ EmptyString +:+ received chunks)
    by (now rewrite app_Empty, Hfirst, !app_assoc_string).
  destruct (Z.leb_spec (digits_value 0 ds) (Z.of_nat (String.length b1)))
    as [Hle | Hgt].
  - cbn [fst]. rewrite length_app_string in Hlen.
    assert (Hr : received chunks = EmptyString)
      by (apply length_zero_string; lia).
    rewrite Hr. now rewrite app_Empty, app_nil_r_string.
  - rewrite <- (app_nil_r_string first) at 1.
    apply recv_loop_body with (header := header) (b1 := b1);
      [exact Hcut | now rewrite app_Empty | now rewrite app_nil_r_string].
Qed.

Lemma recv_loop_whole_frame_witness :
  fst (recv_loop [frame_start; " o"; "ne"] false EmptyString None)
  = Returns (frame_of "+OK one").
Proof.
  exact (recv_loop_whole_frame frame_start
           ("Content-Type: api/response" +:+ String LF "Content-Length: 7")
           "+OK" "7" [" o"; "ne"] false eq_refl eq_refl eq_refl eq_refl).
Defined.

(** ** Which queues get an entry *)

(** The name of a queue record that has a tier row. *)
Definition with_tiers (tiers : list RawRecord) (queue : RawRecord)
  : option (option string) :=
  match getitem queue "name" with
  | Ok k =>
      match any_tier k tiers with
      | Ok true => Some k
      | _ => None
      end
  | Raise _ => None
  end.

Lemma process_queues_list (agents tiers queues : list RawRecord)
    (st0 st : engine) :
  foldM (process_queue agents tiers) queues st0 = Ok st ->
  combined_data_list st
  = combined_data_list st0 ++ omap (with_tiers tiers) queues.
Proof.
  revert st0. induction queues as [| queue rest IH]; intros st0 H; cbn in H.
  - injection H as <-. cbn. now rewrite app_nil_r.
  - bind_inv H. rewrite (IH _ H). cbn [omap list_omap]. unfold with_tiers at 2.
    apply process_queue_inv in E
      as (k & -> & [(-> & ->) | (ans & ab & h & a0 & ts & cd1 & n1 & m & -> & _
                                 & _ & _ & _ & _ & _ & _ & ->)]).
    + reflexivity.
    + cbn [combined_data_list]. now rewrite <- app_assoc.
Qed.

(** The published list has one entry for each queue record that has a
    tier row, in the order of the queue table, and none for a queue
    without a tier row. *)
Theorem entries_are_queues_with_tiers (agents tiers queues : list RawRecord)
    (published : list QueueMetrics) :
  queue_metrics agents tiers queues = Ok published ->
  exists st,
    aggregate agents tiers queues = Ok st
    /\ combined_data_list st = omap (with_tiers tiers) queues
    /\ published = map (entry (combined_data st)) (omap (with_tiers tiers) queues)
    /\ length published = length (omap (with_tiers tiers) queues).
Proof.
  unfold queue_metrics. intros H. bind_inv H. injection H as <-.
  exists a. pose proof (process_queues_list _ _ _ _ _ E) as Hl.
  cbn [combined_data_list app] in Hl. rewrite Hl.
  repeat split. now rewrite length_map.
Qed.

Lemma entries_are_queues_with_tiers_witness :
  exists st,
    aggregate sales_agents sales_tiers
      (row [("name", "Idle queue")] :: sales_queues) = Ok st
    /\ combined_data_list st = [Some "Sales"].
Proof.
  destruct (entries_are_queues_with_tiers sales_agents sales_tiers
              (row [("name", "Idle queue")] :: sales_queues)
              [Metrics (PyStr "Sales") 2 0 1 0 0 1 1 0 0 0 0 (PyInt 0) (PyInt 0)])
    as (st & H1 & H2 & _).
  - vm_compute. reflexivity.
  - exists st. split; [exact H1 | exact H2].
Defined.

(** ** A tier whose agent is unknown *)

Lemma find_agent_unknown (an : option string) (agents : list RawRecord) :
  Forall (fun a => exists n, getitem a "name" = Ok n /\ n <> an) agents ->
  find_agent an agents = Ok None.
Proof.
  induction 1 as [| a rest (n & Hn & Hne) _ IH]; cbn; [reflexivity |].
  rewrite Hn. cbn [bindR]. now rewrite bool_decide_eq_false_2.
Qed.

(** A tier that names an agent absent from the agent table (every agent
    row having a name, and another one) changes nothing and raises
    nothing: the loop goes on with the next tier. *)
Theorem dangling_tier_skipped (agents : list RawRecord)
    (queue_name an : option string) (tier : RawRecord)
    (st : gmap (option string) QueueMetrics * Z) :
  getitem tier "agent" = Ok an ->
  Forall (fun a => exists n, getitem a "name" = Ok n /\ n <> an) agents ->
  process_tier agents queue_name tier st = Ok st.
Proof.
  intros Ht Ha. unfold process_tier. rewrite Ht. cbn [bindR].
  now rewrite (find_agent_unknown _ _ Ha).
Qed.

Lemma dangling_tier_skipped_witness :
  process_tier sales_agents (Some "Sales")
    (row [("queue", "Sales"); ("agent", "carol")]) (∅, 0) = Ok (∅, 0).
Proof.
  apply (dangling_tier_skipped sales_agents (Some "Sales") (Some "carol")).
  - reflexivity.
  - repeat constructor.
    + exists (Some "alice"). split; [reflexivity | discriminate].
    + exists (Some "bob"). split; [reflexivity | discriminate].
Defined.

(** ** Invariants of the counters *)

(** What the classification of lines 156-164 keeps true of an entry: no
    counter is negative; an agent counted as waiting is counted as
    available; one counted on break, in after-call work or available is
    counted online; and no agent is counted in two of the states In a queue
    call, Idle and Receiving. *)
Definition coherent (m : QueueMetrics) : Prop :=
  0 <= Online m /\ 0 <= InaQueueCall m /\ 0 <= OnBreak m /\ 0 <= ACW m
  /\ 0 <= LoggedOut m /\ 0 <= Available m /\ 0 <= Idle m /\ 0 <= Waiting m
  /\ 0 <= Receiving m
  /\ Waiting m <= Available m
  /\ OnBreak m + ACW m + Available m <= Online m
  /\ InaQueueCall m + Idle m + Receiving m <= Online m + LoggedOut m.

Lemma is_str_exclusive (v : option string) (a b : string) :
  a <> b -> is_str v a = true -> is_str v b = false.
Proof.
  unfold is_str. intros Hne Ha. apply bool_decide_eq_true_1 in Ha.
  apply bool_decide_eq_false_2. congruence.
Qed.

Lemma count_agent_coherent (k status state : option string) (m : QueueMetrics) :
  coherent m -> coherent (count_agent k status state m).
Proof.
  unfold coherent, count_agent.
  cbn [Online InaQueueCall OnBreak ACW LoggedOut Available Idle Waiting
       Receiving].
  pose proof (is_str_exclusive status "Logged Out" "On Break" ltac:(discriminate)).
  pose proof (is_str_exclusive status "Logged Out" "Available (On Demand)"
                ltac:(discriminate)).
  pose proof (is_str_exclusive status "Logged Out" "Available" ltac:(discriminate)).
  pose proof (is_str_exclusive status "On Break" "Available (On Demand)"
                ltac:(discriminate)).
  pose proof (is_str_exclusive status "On Break" "Available" ltac:(discriminate)).
  pose proof (is_str_exclusive status "Available (On Demand)" "Available"
                ltac:(discriminate)).
  pose proof (is_str_exclusive state "In a queue call" "Idle" ltac:(discriminate)).
  pose proof (is_str_exclusive state "In a queue call" "Receiving"
                ltac:(discriminate)).
  pose proof (is_str_exclusive state "In a queue call" "Waiting"
                ltac:(discriminate)).
  pose proof (is_str_exclusive state "Idle" "Receiving" ltac:(discriminate)).
  pose proof (is_str_exclusive state "Receiving" "Waiting" ltac:(discriminate)).
  destruct (is_str status "Logged Out"), (is_str status "On Break"),
    (is_str status "Available (On Demand)"), (is_str status "Available"),
    (is_str state "In a queue call"), (is_str state "Idle"),
    (is_str state "Receiving"), (is_str state "Waiting");
    repeat match goal with
           | H : true = true -> _ |- _ => specialize (H eq_refl)
           end;
    try discriminate; cbn [one_if negb andb]; lia.
Qed.

Lemma handle_time_coherent (agent : RawRecord) (m m' : QueueMetrics)
    (n n' : Z) :
  handle_time agent m n = Ok (m', n') -> coherent m -> coherent m'.
Proof.
  unfold handle_time. destruct (bridge_pair agent) as [[s e] | ex].
  - unfold add_AHT. destruct (AHT m); try discriminate.
    intros [= <- _] H. exact H.
  - destruct (caught ex); [| discriminate]. now intros [= <- _].
Qed.

Lemma average_coherent (m m' : QueueMetrics) (n : Z) :
  average m n = Ok m' -> coherent m -> coherent m'.
Proof.
  unfold average. destruct (n >? 0); [| now intros [= <-]].
  destruct (AHT m); try discriminate. intros [= <-] H. exact H.
Qed.

Lemma new_metrics_coherent : coherent new_metrics.
Proof. unfold coherent. cbn. lia. Qed.

Lemma entry_coherent (cd : gmap (option string) QueueMetrics)
    (k k' : option string) (m : QueueMetrics) :
  coherent m -> (forall j, coherent (entry cd j)) ->
  coherent (entry (<[k := m]> cd) k').
Proof.
  intros Hm Hcd. destruct (decide (k = k')) as [<- | Hne].
  - now rewrite entry_insert.
  - now rewrite entry_insert_ne.
Qed.

Lemma aggregate_coherent (agents tiers queues : list RawRecord) (st : engine) :
  aggregate agents tiers queues = Ok st ->
  forall k, coherent (entry (combined_data st) k).
Proof.
  intros H.
  refine (foldM_invariant (process_queue agents tiers)
            (fun s => forall k, coherent (entry (combined_data s) k))
            queues (Engine ∅ [] 0) st _ _ H).
  - intros k. cbn [combined_data]. rewrite entry_empty.
    apply new_metrics_coherent.
  - intros queue s1 s2 _ Hs Hq.
    apply process_queue_inv in Hq
      as (kq & _ & [(_ & ->) | (ans & ab & h & a & ts & cd1 & n1 & m & _ & _ & _
                                & _ & _ & _ & Hfold & Hav & ->)]);
      [exact Hs |].
    cbn [combined_data].
    assert (H1 : forall j, coherent (entry cd1 j)).
    { refine (foldM_invariant (process_tier agents kq)
                (fun s => forall j, coherent (entry (fst s) j)) ts _ (cd1, n1)
                _ _ Hfold).
      - intros j. cbn [fst]. apply entry_coherent; [| exact Hs].
        exact (Hs kq).
      - intros tier [c1 m1] [c2 m2] _ Hc Ht. cbn [fst] in *.
        apply process_tier_inv in Ht
          as (an & _ & [(_ & -> & _) | (ag & s & t & m' & _ & _ & _ & Hh & ->)]);
          [exact Hc |].
        intros j. apply entry_coherent; [| exact Hc].
        eapply handle_time_coherent; [exact Hh |].
        apply count_agent_coherent, Hc. }
    intros j. apply entry_coherent; [| exact H1].
    eapply average_coherent; [exact Hav | apply H1].
Qed.

(** Every published QueueMetrics entry is coherent: its nine counters are
    non-negative, [Waiting <= Available],
    [OnBreak + ACW + Available <= Online] and
    [InaQueueCall + Idle + Receiving <= Online + LoggedOut]. *)
Theorem published_counters_coherent (agents tiers queues : list RawRecord)
    (published : list QueueMetrics) :
  queue_metrics agents tiers queues = Ok published ->
  Forall coherent published.
Proof.
  unfold queue_metrics. intros H. bind_inv H. injection H as <-.
  apply Forall_forall. intros m Hm. apply list_elem_of_fmap in Hm as [k [-> _]].
  now apply aggregate_coherent with agents tiers queues.
Qed.

Lemma published_counters_coherent_witness :
  Forall coherent
    [Metrics (PyStr "Sales") 2 0 1 0 0 1 1 0 0 0 0 (PyInt 0) (PyInt 0)].
Proof.
  apply (published_counters_coherent sales_agents sales_tiers sales_queues).
  vm_compute. reflexivity.
Defined.

(** ** AgentMetrics *)

(** [d[k]] for a dict of the agent snapshot. *)
Fixpoint dict_get (d : list (string * pyval)) (k : string) : option pyval :=
  match d with
  | [] => None
  | (k', v) :: d' => if String.eqb k k' then Some v else dict_get d' k
  end.

(** The tiers of the agent called [n]. *)
Definition tiers_of (n : option string) (tiers : list RawRecord)
  : list RawRecord :=
  filter (fun t => getitem t "agent" = Ok n) tiers.

Lemma agent_queues_spec (agent : RawRecord) (tiers : list RawRecord)
    (qs : list (option string)) (n : option string) :
  getitem agent "name" = Ok n ->
  agent_queues agent tiers = Ok qs ->
  Forall2 (fun t q => getitem t "queue" = Ok q) (tiers_of n tiers) qs.
Proof.
  intros Hn. revert qs. unfold tiers_of.
  induction tiers as [| tier rest IH]; intros qs H; cbn in H.
  - injection H as <-. constructor.
  - bind_inv H. rewrite Hn in H. cbn [bindR] in H.
    destruct (bool_decide_reflect (a = n)) as [-> | Hne].
    + bind_inv H. bind_inv H. injection H as <-.
      rewrite filter_cons_True by exact E. constructor; [exact E0 | now apply IH].
    + rewrite filter_cons_False by congruence. now apply IH.
Qed.

Lemma agent_levels_positions_spec (agent : RawRecord) (tiers : list RawRecord)
    (lps : list (option string * option string)) (n : option string) :
  getitem agent "name" = Ok n ->
  agent_levels_positions agent tiers = Ok lps ->
  Forall2 (fun t lp => getitem t "level" = Ok (fst lp)
                       /\ getitem t "position" = Ok (snd lp))
          (tiers_of n tiers) lps.
Proof.
  intros Hn. revert lps. unfold tiers_of.
  induction tiers as [| tier rest IH]; intros lps H; cbn in H.
  - injection H as <-. constructor.
  - bind_inv H. rewrite Hn in H. cbn [bindR] in H.
    destruct (bool_decide_reflect (a = n)) as [-> | Hne].
    + do 3 bind_inv H. injection H as <-.
      rewrite filter_cons_True by exact E.
      constructor; [split; assumption | now apply IH].
    + rewrite filter_cons_False by congruence. now apply IH.
Qed.

(** What a successful pass of the loop body of lines 199-246 has read and
    built. *)
Lemma agent_metrics_inv (time : nat -> Q) (now : Q) (tiers : list RawRecord)
    (agent : RawRecord) (tick tick' : nat)
    (r : option (list (string * pyval))) :
  agent_metrics time now tiers agent tick = Ok (r, tick') ->
  exists last_bridge_start last_bridge_end qs lps,
    get_int agent "last_bridge_start" = Ok last_bridge_start
    /\ get_int agent "last_bridge_end" = Ok last_bridge_end
    /\ agent_queues agent tiers = Ok qs
    /\ agent_levels_positions agent tiers = Ok lps
    /\ match r with
       | None => qs = []
       | Some d =>
           qs <> []
           /\ exists name type status state Statusduration duration Queue acw
                     no_answer_count calls_answered Level Position,
                getitem agent "name" = Ok name
                /\ getitem agent "status" = Ok status
                /\ getitem agent "state" = Ok state
                /\ join_comma qs = Ok Queue
                /\ join_comma (map (fun lp => Some (str_of_cell (fst lp))) lps)
                   = Ok Level
                /\ join_comma (map (fun lp => Some (str_of_cell (snd lp))) lps)
                   = Ok Position
                /\ d = [("Name", of_cell name); ("Type", of_cell type);
                        ("Status", of_cell status);
                        ("Statusduration", Statusduration);
                        ("Capacity", PyInt 1);
                        ("Availability",
                         PyInt (one_if (is_str status "Available")));
                        ("contact_state",
                         PyStr (if is_str state "In a queue call"
                                then "In a queue call"
                                else if is_str state "Receiving" then "Receiving"
                                else if is_str status "Available (On Demand)"
                                then "Available (On Demand)" else "-"));
                        ("Contact_state_Duration", PyStr duration);
                        ("Queue", PyStr Queue); ("ACW", PyStr acw);
                        ("Agent_non_response", of_cell no_answer_count);
                        ("Calls_handled", of_cell calls_answered);
                        ("LCHT",
                         PyStr (if is_str state "In a queue call" then "-"
                                else convert_seconds_to_hhmmss
                                       (inject_Z (last_bridge_end
                                                  - last_bridge_start))));
                        ("Level", PyStr Level); ("Position", PyStr Position)]
       end.
Proof.
  unfold agent_metrics. intros H. do 6 bind_inv H.
  exists a, a0, a3, a4. do 4 (split; [reflexivity |]).
  destruct a3 as [| q qs'].
  - now injection H as <- _.
  - do 4 bind_inv H.
    destruct (negb (is_str a7 "0")); bind_inv H;
      destruct (is_str a8 "Receiving") eqn:Er;
      destruct (is_str a8 "In a queue call") eqn:Ec;
      destruct (is_str a6 "Available (On Demand)") eqn:Ea;
      cbn [negb] in H; do 5 bind_inv H; injection H as <- _;
      (split; [discriminate |]); do 12 eexists;
      repeat (split; [reflexivity |]);
      rewrite ?Er, ?Ec, ?Ea; reflexivity.
Qed.


(** The fields of an entry that come from the status and the state of the
    agent: [Availability] is 1 exactly for the status Available;
    [contact_state] is the first of In a queue call, Receiving (by
    state) and Available (On Demand) (by status) that applies, else a
    dash; [LCHT] is a dash while the agent is in a queue call, whatever the
    bridge timestamps, and the formatted [last_bridge_end -
    last_bridge_start] otherwise. *)
Theorem agent_entry_status_fields (time : nat -> Q) (now : Q)
    (tiers : list RawRecord) (agent : RawRecord) (tick tick' : nat)
    (d : list (string * pyval)) (n status state : option string)
    (last_bridge_start last_bridge_end : Z) :
  agent_metrics time now tiers agent tick = Ok (Some d, tick') ->
  getitem agent "name" = Ok n ->
  getitem agent "status" = Ok status ->
  getitem agent "state" = Ok state ->
  get_int agent "last_bridge_start" = Ok last_bridge_start ->
  get_int agent "last_bridge_end" = Ok last_bridge_end ->
  dict_get d "Name" = Some (of_cell n)
  /\ dict_get d "Status" = Some (of_cell status)
  /\ dict_get d "Capacity" = Some (PyInt 1)
  /\ dict_get d "Availability"
     = Some (PyInt (if is_str status "Available" then 1 else 0))
  /\ dict_get d "contact_state"
     = Some (PyStr (if is_str state "In a queue call" then "In a queue call"
                    else if is_str state "Receiving" then "Receiving"
                    else if is_str status "Available (On Demand)"
                    then "Available (On Demand)" else "-"))
  /\ dict_get d "LCHT"
     = Some (PyStr (if is_str state "In a queue call" then "-"
                    else convert_seconds_to_hhmmss
                           (inject_Z (last_bridge_end - last_bridge_start)))).
Proof.
  intros H Hn Hs Ht Hb He.
  apply agent_metrics_inv in H
    as (lbs & lbe & qs & lps & Hlbs & Hlbe & _ & _ & _
        & name & type & st & sta & sd & du & Qu & acw & nac & ca & Le & Po
        & Hn' & Hs' & Ht' & _ & _ & _ & ->).
  assert (name = n) as -> by congruence.
  assert (st = status) as -> by congruence.
  assert (sta = state) as -> by congruence.
  assert (lbs = last_bridge_start) as -> by congruence.
  assert (lbe = last_bridge_end) as -> by congruence.
  repeat split.
Qed.

(** The fields of an entry that come from the tiers of the agent: [Queue],
    [Level] and [Position] are the queue, level and position cells of the
    tier rows that name the agent, in the order of the tier table, joined
    by a comma and a space. *)
Theorem agent_entry_tier_fields (time : nat -> Q) (now : Q)
    (tiers : list RawRecord) (agent : RawRecord) (tick tick' : nat)
    (d : list (string * pyval)) (n : option string) :
  agent_metrics time now tiers agent tick = Ok (Some d, tick') ->
  getitem agent "name" = Ok n ->
  exists qs lps Queue Level Position,
    Forall2 (fun t q => getitem t "queue" = Ok q) (tiers_of n tiers) qs
    /\ Forall2 (fun t lp => getitem t "level" = Ok (fst lp)
                            /\ getitem t "position" = Ok (snd lp))
               (tiers_of n tiers) lps
    /\ join_comma qs = Ok Queue
    /\ join_comma (map (fun lp => Some (str_of_cell (fst lp))) lps) = Ok Level
    /\ join_comma (map (fun lp => Some (str_of_cell (snd lp))) lps)
       = Ok Position
    /\ dict_get d "Queue" = Some (PyStr Queue)
    /\ dict_get d "Level" = Some (PyStr Level)
    /\ dict_get d "Position" = Some (PyStr Position).
Proof.
  intros H Hn.
  apply agent_metrics_inv in H
    as (lbs & lbe & qs & lps & _ & _ & Hq & Hl & _
        & name & type & st & sta & sd & du & Qu & acw & nac & ca & Le & Po
        & _ & _ & _ & HQ & HL & HP & ->).
  exists qs, lps, Qu, Le, Po.
  split; [now apply agent_queues_spec with agent |].
  split; [now apply agent_levels_positions_spec with agent |].
  repeat split; assumption.
Qed.

(** The agent part does not catch what the queue part catches: a
    [last_bridge_start] that [int()] rejects, in any agent row, with or
    without a tier, makes the whole agent snapshot fail. *)
Theorem agent_metrics_list_bad_timestamp (time : nat -> Q) (now : Q)
    (tiers agents : list RawRecord) (tick : nat) (agent : RawRecord) (e : exn) :
  agent ∈ agents ->
  get_int agent "last_bridge_start" = Raise e ->
  exists e', agent_metrics_list time now tiers agents tick = Raise e'.
Proof.
  intros Hin He. revert tick.
  induction agents as [| a rest IH]; intros tick; [inversion Hin |].
  cbn [agent_metrics_list].
  apply elem_of_cons in Hin as [<- | Hin].
  - unfold agent_metrics. rewrite He. cbn [bindR]. eauto.
  - destruct (agent_metrics time now tiers a tick) as [[r t] | e0];
      cbn [bindR]; [| eauto].
    destruct (IH Hin (snd (r, t))) as [e' ->]. cbn [bindR]. eauto.
Qed.

Definition alice : RawRecord :=
  row [("name", "alice"); ("type", "callback"); ("status", "Available");
       ("state", "In a queue call"); ("last_bridge_start", "100");
       ("last_bridge_end", "160"); ("last_offered_call", "90");
       ("last_status_change", "0"); ("no_answer_count", "2");
       ("calls_answered", "5")].
Definition dave : RawRecord :=
  row [("name", "dave"); ("last_bridge_start", "")].
Definition alice_tiers : list RawRecord :=
  [row [("queue", "Sales"); ("agent", "alice"); ("level", "1");
        ("position", "2")];
   row [("queue", "Support"); ("agent", "bob"); ("level", "1");
        ("position", "1")];
   row [("queue", "Support"); ("agent", "alice"); ("level", "3");
        ("position", "1")]].

Definition alice_entry : list (string * pyval) :=
  [("Name", PyStr "alice"); ("Type", PyStr "callback");
   ("Status", PyStr "Available"); ("Statusduration", PyInt 0);
   ("Capacity", PyInt 1); ("Availability", PyInt 1);
   ("contact_state", PyStr "In a queue call");
   ("Contact_state_Duration", PyStr "00:01:40");
   ("Queue", PyStr "Sales, Support"); ("ACW", PyStr "-");
   ("Agent_non_response", PyStr "2"); ("Calls_handled", PyStr "5");
   ("LCHT", PyStr "-"); ("Level", PyStr "1, 3"); ("Position", PyStr "2, 1")].

Lemma alice_metrics :
  agent_metrics (fun _ => 200%Q) 200%Q alice_tiers alice 1
  = Ok (Some alice_entry, 1%nat).
Proof. vm_compute. reflexivity. Qed.


Lemma agent_entry_status_fields_witness :
  dict_get alice_entry "LCHT" = Some (PyStr "-").
Proof.
  exact (proj2 (proj2 (proj2 (proj2 (proj2
    (agent_entry_status_fields (fun _ => 200%Q) 200%Q alice_tiers alice 1 1
       alice_entry (Some "alice") (Some "Available") (Some "In a queue call")
       100 160 alice_metrics eq_refl eq_refl eq_refl eq_refl eq_refl)))))).
Defined.

Lemma agent_entry_tier_fields_witness :
  exists qs Queue,
    Forall2 (fun t q => getitem t "queue" = Ok q)
            (tiers_of (Some "alice") alice_tiers) qs
    /\ join_comma qs = Ok Queue
    /\ dict_get alice_entry "Queue" = Some (PyStr Queue).
Proof.
  destruct (agent_entry_tier_fields (fun _ => 200%Q) 200%Q alice_tiers alice
              1 1 alice_entry (Some "alice") alice_metrics eq_refl)
    as (qs & lps & Queue & Level & Position & H1 & _ & H2 & _ & _ & H3 & _).
  exists qs, Queue. repeat split; assumption.
Defined.

Lemma agent_metrics_list_bad_timestamp_witness :
  exists e',
    agent_metrics_list (fun _ => 200%Q) 200%Q alice_tiers [alice; dave] 1
    = Raise e'.
Proof.
  apply (agent_metrics_list_bad_timestamp (fun _ => 200%Q) 200%Q alice_tiers
           [alice; dave] 1 dave invalid_literal).
  - right. left.
  - reflexivity.
Defined.

(** ** Durations *)








(** ** Rows as dicts *)

Lemma assoc_dict_set (k k' : string) (v : option string)
    (d : list (string * option string)) :
  assoc k (dict_set k' v d) = if String.eqb k k' then Some v else assoc k d.
Proof.
  induction d as [| [k1 v1] d IH]; cbn [dict_set assoc]; [reflexivity |].
  destruct (String.eqb_spec k' k1) as [<- | Hne]; cbn [assoc].
  - destruct (String.eqb k k'); reflexivity.
  - rewrite IH. destruct (String.eqb_spec k k1) as [-> | H1]; [| reflexivity].
    now rewrite (proj2 (String.eqb_neq k1 k')) by congruence.
Qed.

Lemma assoc_zip_row_other (k : string) (ks vs : list string)
    (d : list (string * option string)) :
  k ∉ ks -> assoc k (zip_row ks vs d) = assoc k d.
Proof.
  revert vs d. induction ks as [| k0 ks IH]; intros vs d Hk; [now destruct vs |].
  apply not_elem_of_cons in Hk as [Hne Hk].
  destruct vs as [| v vs]; cbn [zip_row]; rewrite IH by exact Hk;
    rewrite assoc_dict_set; now rewrite (proj2 (String.eqb_neq k k0)).
Qed.

Lemma assoc_zip_row (k : string) (ks vs : list string)
    (d : list (string * option string)) (i : nat) :
  NoDup ks -> ks !! i = Some k ->
  assoc k (zip_row ks vs d) = Some (vs !! i).
Proof.
  revert vs d i. induction ks as [| k0 ks IH]; intros vs d i Hnd Hi;
    [discriminate |].
  apply NoDup_cons in Hnd as [Hk0 Hnd].
  destruct i as [| i]; cbn in Hi.
  - injection Hi as ->.
    destruct vs as [| v vs]; cbn [zip_row];
      rewrite assoc_zip_row_other by exact Hk0;
      now rewrite assoc_dict_set, String.eqb_refl.
  - destruct vs as [| v vs]; cbn [zip_row]; now rewrite (IH _ _ i).
Qed.

(** A row read under distinct field names is looked up by name as its
    cells are by position: the [i]-th name gives the [i]-th cell, [None]
    when the row is too short to have one; a name that is not a field
    name raises [KeyError]. *)
Theorem record_lookup (fieldnames cells : list string) (k : string) :
  NoDup fieldnames ->
  (forall i, fieldnames !! i = Some k ->
     getitem (to_record fieldnames cells) k = Ok (cells !! i))
  /\ (k ∉ fieldnames ->
      getitem (to_record fieldnames cells) k = Raise (key_error k)).
Proof.
  intros Hnd. unfold getitem, to_record. cbn [columns]. split.
  - intros i Hi. now rewrite (assoc_zip_row _ _ _ _ i Hnd Hi).
  - intros Hk. now rewrite assoc_zip_row_other.
Qed.

Lemma record_lookup_witness :
  getitem (to_record ["name"; "status"; "state"] ["alice"; "Available"])
          "status" = Ok (Some "Available")
  /\ getitem (to_record ["name"; "status"; "state"] ["alice"; "Available"])
             "state" = Ok None.
Proof.
  assert (Hnd : NoDup ["name"; "status"; "state"]) by by_decide.
  split.
  - exact (proj1 (record_lookup ["name"; "status"; "state"]
                    ["alice"; "Available"] "status" Hnd) 1%nat eq_refl).
  - exact (proj1 (record_lookup ["name"; "status"; "state"]
                    ["alice"; "Available"] "state" Hnd) 2%nat eq_refl).
Defined.

(** ** Responses that are no frames *)

Lemma cut_none (sep s : string) : cut sep s = None <-> contains sep s = false.
Proof.
  induction s as [| c t IH]; cbn [cut contains].
  - destruct (startswith sep EmptyString); easy.
  - destruct (startswith sep (String c t)); [easy |].
    rewrite <- IH. destruct (cut sep t) as [[a b] |]; easy.
Qed.

Lemma parse_process_char_raises (p : csv_parser) (c : option ascii) (e : exn) :
  parse_process_char p c = Raise e -> e = newline_in_field.
Proof.
  unfold parse_process_char.
  destruct (state p), c as [ch |]; try discriminate;
    repeat match goal with
           | |- context [if ?b then _ else _] => destruct b
           end; try discriminate.
  now intros [= <-].
Qed.

Lemma feed_raises (p : csv_parser) (line : string) (e : exn) :
  feed p line = Raise e -> e = newline_in_field.
Proof.
  revert p. induction line as [| c t IH]; intros p; cbn [feed].
  - apply parse_process_char_raises.
  - destruct (parse_process_char p (Some c)) as [p' | e'] eqn:E; cbn [bindR].
    + apply IH.
    + intros [= <-]. eapply parse_process_char_raises, E.
Qed.

Lemma reader_raises (lines : list string) (p : csv_parser) (e : exn) :
  reader lines p = Raise e -> e = newline_in_field.
Proof.
  revert p. induction lines as [| line rest IH]; intros p; cbn [reader].
  - destruct (_ || _); discriminate.
  - destruct (feed p line) as [p' | e'] eqn:E; cbn [bindR].
    + destruct (bool_decide (state p' = START_RECORD)); [| apply IH].
      destruct (reader rest parse_reset) as [rows | e'] eqn:E'; cbn [bindR];
        [discriminate |].
      intros [= <-]. eapply IH, E'.
    + intros [= <-]. eapply feed_raises, E.
Qed.

Lemma parse_response_no_blank_line (response : string) :
  contains blank_line response = false ->
  parse_response response = Raise invalid_format.
Proof.
  intros H. apply cut_none in H. unfold parse_response, split1.
  now rewrite H.
Qed.

(** [parse_response] raises [ValueError("Invalid response format")]
    exactly for a response without a blank line, such as the text of an
    exception that [execute_multiple_commands] stored for a failed
    command. *)
Theorem parse_response_invalid_format (response : string) :
  parse_response response = Raise invalid_format
  <-> contains blank_line response = false.
Proof.
  rewrite <- cut_none. unfold parse_response, split1.
  destruct (cut blank_line response) as [[a b] |]; cbn.
  - split; [| discriminate].
    destruct (reader _ _) as [rows | e] eqn:E; cbn [bindR]; [discriminate |].
    apply reader_raises in E. subst e. discriminate.
  - split; reflexivity.
Qed.

(** A cycle in which the agent list command has left a text without a
    blank line in the results (it failed, and the text is that of the
    exception) reports the invalid format and leaves the store as it
    was. *)
Theorem cycle_with_failed_command (time : nat -> Q) (client : FreeSWITCHClient)
    (commands : list string) (redis_client : gmap string snapshot)
    (responses : gmap string string) (r : string) :
  fst (execute_multiple_commands commands client) = Returns responses ->
  responses !! "callcenter_config agent list" = Some r ->
  contains blank_line r = false ->
  execute_and_process_commands time client commands redis_client
  = (Reported invalid_format,
     snd (execute_multiple_commands commands client), redis_client).
Proof.
  intros Hrun Hr Hc. unfold execute_and_process_commands.
  destruct (execute_multiple_commands commands client) as [o c].
  cbn [fst snd] in *. subst o.
  unfold tables, response_of. rewrite Hr. cbn [bindR].
  now rewrite (parse_response_no_blank_line _ Hc).
Qed.

(** The peer authenticates the client and then stays silent. *)
Definition mute : FreeSWITCHClient :=
  Client (Listening [auth_request] [[reply_ok]] false) "ClueCon" None.

Lemma cycle_with_failed_command_witness :
  fst (fst (execute_and_process_commands (fun _ => 0%Q) mute list_commands ∅))
  = Reported invalid_format.
Proof.
  refine (f_equal (fun x => fst (fst x))
            (cycle_with_failed_command (fun _ => 0%Q) mute list_commands ∅
               (<["callcenter_config queue list" := "timed out"]>
                  (<["callcenter_config tier list" := "timed out"]>
                     (<["callcenter_config agent list" := "timed out"]> ∅)))
               "timed out" _ _ _)).
  - vm_compute. reflexivity.
  - vm_compute. reflexivity.
  - reflexivity.
Defined.

(** ** Tables *)








Fixpoint ends_nonspace (s : string) : bool :=
  match s with
  | EmptyString => false
  | String c EmptyString => negb (is_space c)
  | String _ t => ends_nonspace t
  end.




















Lemma rstrip_nonspace (t : string) : ends_nonspace t = true -> rstrip t = t.
Proof.
  induction t as [| c t IH]; [discriminate |].
  cbn [ends_nonspace rstrip]. destruct t as [| c' t'].
  - intros H%negb_true_iff. cbn [rstrip]. now rewrite H.
  - intros H. now rewrite (IH H).
Qed.










(** ** The three tables of a cycle *)


